(** * Claude OAuth API: the request handlers of [main.py] and [main_visual.py]

    A shallow embedding of the FastAPI handlers that drive a headless browser
    through the login and OAuth authorization flows, and the properties of
    the specification proved (or refuted) on it.

    Python strings are modelled by [string]; a character is a code point
    below 256.  The browser is an environment the handlers talk to: every
    awaited call is recorded in the world's trace, and its answer (a value or
    a raised exception) is given by a [Browser], an arbitrary function of the
    calls made so far. *)

From Stdlib Require Import String Ascii List Bool Arith NArith Lia DecimalString.
Import ListNotations.
Open Scope string_scope.

(** ** Python string operations used by the handlers *)

Module PyStr.

(** [s.startswith(p)] *)
Fixpoint startswith (p s : string) : bool :=
  match p, s with
  | EmptyString, _ => true
  | String _ _, EmptyString => false
  | String a p', String b s' => Ascii.eqb a b && startswith p' s'
  end.

(** [sub in s] *)
Fixpoint contains (sub s : string) : bool :=
  if startswith sub s then true
  else match s with
       | EmptyString => false
       | String _ s' => contains sub s'
       end.

Fixpoint drop (n : nat) (s : string) : string :=
  match n, s with
  | O, _ => s
  | S _, EmptyString => EmptyString
  | S n', String _ s' => drop n' s'
  end.

(** The text before the leftmost occurrence of [sep] in [s]; all of [s]
    when [sep] does not occur. *)
Fixpoint before_first (sep s : string) : string :=
  if startswith sep s then EmptyString
  else match s with
       | EmptyString => EmptyString
       | String c s' => String c (before_first sep s')
       end.

(** The text after the leftmost occurrence of [sep] in [s], if any. *)
Fixpoint after_first (sep s : string) : option string :=
  if startswith sep s then Some (drop (String.length sep) s)
  else match s with
       | EmptyString => None
       | String _ s' => after_first sep s'
       end.

(** [s.split(sep)] for a non-empty [sep]: the pieces between the
    non-overlapping occurrences of [sep], found from left to right.  The
    recursion is on a fuel that [split] sets to more than the length of
    [s]. *)
Fixpoint split_fuel (fuel : nat) (sep s : string) : list string :=
  match fuel with
  | O => [s]
  | S fuel' =>
      match after_first sep s with
      | None => [s]
      | Some rest => before_first sep s :: split_fuel fuel' sep rest
      end
  end.

Definition split (sep s : string) : list string :=
  split_fuel (S (String.length s)) sep s.

(** [c.isspace()] on the code points below 256. *)
Definition isspace (c : ascii) : bool :=
  let n := nat_of_ascii c in
  (((9 <=? n) && (n <=? 13)) || ((28 <=? n) && (n <=? 32))
   || (n =? 133) || (n =? 160))%nat.

Fixpoint lstrip (s : string) : string :=
  match s with
  | EmptyString => EmptyString
  | String c s' => if isspace c then lstrip s' else s
  end.

Fixpoint rstrip (s : string) : string :=
  match s with
  | EmptyString => EmptyString
  | String c s' =>
      match rstrip s' with
      | EmptyString => if isspace c then EmptyString else String c EmptyString
      | r => String c r
      end
  end.

(** [s.strip()] *)
Definition strip (s : string) : string := rstrip (lstrip s).

(** Truthiness of a string: [bool(s)]. *)
Definition truthy (s : string) : bool :=
  match s with EmptyString => false | String _ _ => true end.

(** [s[:n]] *)
Fixpoint take (n : nat) (s : string) : string :=
  match n, s with
  | O, _ => EmptyString
  | S _, EmptyString => EmptyString
  | S n', String c s' => String c (take n' s')
  end.

(** The characters of [s], as the one-character strings a [for] loop over a
    Python string yields. *)
Fixpoint chars (s : string) : list string :=
  match s with
  | EmptyString => []
  | String c s' => String c EmptyString :: chars s'
  end.

End PyStr.

(** ** Regular expressions of the code patterns

    The three patterns of [code_patterns] are sequences of literals, [.],
    a character class repeated once or more, and one capturing group of a
    repeated character class.  In each of them the class of a repetition
    shares no character with what follows it, so the longest repetition is
    the only one a backtracking matcher can accept, and [match_at] takes
    it. *)

Module Re.

Inductive Item :=
| Lit (s : string)
| Dot
| Many1 (cls : ascii -> bool)
| Capture (cls : ascii -> bool) (min : nat).

(** The longest prefix of [s] made of characters of [cls], and the rest. *)
Fixpoint span (cls : ascii -> bool) (s : string) : string * string :=
  match s with
  | EmptyString => (EmptyString, EmptyString)
  | String c s' =>
      if cls c then let (a, b) := span cls s' in (String c a, b)
      else (EmptyString, s)
  end.

Definition is_newline (c : ascii) : bool := (nat_of_ascii c =? 10)%nat.

(** A match of the items at the start of [s]: the text of the group. *)
Fixpoint match_at (items : list Item) (s : string) (group : string)
  : option string :=
  match items with
  | [] => Some group
  | Lit l :: items' =>
      if PyStr.startswith l s
      then match_at items' (PyStr.drop (String.length l) s) group
      else None
  | Dot :: items' =>
      match s with
      | EmptyString => None
      | String c s' => if is_newline c then None else match_at items' s' group
      end
  | Many1 cls :: items' =>
      let (a, b) := span cls s in
      if PyStr.truthy a then match_at items' b group else None
  | Capture cls min :: items' =>
      let (a, b) := span cls s in
      if (min <=? String.length a)%nat then match_at items' b a else None
  end.

(** [re.search(pattern, s)], giving [match.group(1)] of the leftmost
    match. *)
Fixpoint search (items : list Item) (s : string) : option string :=
  match match_at items s EmptyString with
  | Some g => Some g
  | None =>
      match s with
      | EmptyString => None
      | String _ s' => search items s'
      end
  end.

Definition in_range (lo hi : nat) (c : ascii) : bool :=
  let n := nat_of_ascii c in ((lo <=? n) && (n <=? hi))%nat.

(** The class [A-Za-z0-9_-]. *)
Definition token_char (c : ascii) : bool :=
  in_range 65 90 c || in_range 97 122 c || in_range 48 57 c
  || (nat_of_ascii c =? 95)%nat || (nat_of_ascii c =? 45)%nat.

(** The class of the double quote, [\s] and the colon. *)
Definition quote_space_colon (c : ascii) : bool :=
  (nat_of_ascii c =? 34)%nat || PyStr.isspace c || (nat_of_ascii c =? 58)%nat.

End Re.

(** ** Exceptions, the world and the browser *)

Inductive Exn :=
| Exception (msg : string)
| HTTPException (status_code : nat) (detail : string).

Definition nat_to_string (n : nat) : string :=
  NilZero.string_of_uint (Nat.to_uint n).

(** [str(e)] *)
Definition exn_str (e : Exn) : string :=
  match e with
  | Exception msg => msg
  | HTTPException c d => nat_to_string c ++ ": " ++ d
  end.

Definition Page := nat.

(** The calls a handler makes to the browser, in the order of the source's
    API: page methods, [locator(sel).first] methods, element handles given by
    [wait_for_selector] and [locator(sel).all()], and [asyncio.sleep] (bounds
    in milliseconds). *)
Inductive Action :=
| NewPage
| Goto (p : Page) (url : string)
| WaitForLoadState (p : Page) (state : string)
| Fill (p : Page) (sel value : string)
| Click (p : Page) (sel : string)
| WaitForSelector (p : Page) (sel : string) (timeout : option N)
| LocatorAll (p : Page) (sel : string)
| NthFill (p : Page) (sel : string) (i : nat) (value : string)
| FirstIsVisible (p : Page) (sel : string)
| FirstClick (p : Page) (sel : string)
| FirstTextContent (p : Page) (sel : string)
| TextContent (p : Page) (sel : string)
| Content (p : Page)
| LocatorIsVisible (p : Page) (sel : string)
| HandleClick (p : Page) (sel : string)
| HandleType (p : Page) (sel : string) (text : string)
| MouseMove (p : Page)
| Sleep (lo hi : N)
| Close (p : Page).

Inductive Answer (A : Type) :=
| Returns (a : A)
| Throws (msg : string).
Arguments Returns {A} a.
Arguments Throws {A} msg.

(** The environment of the handlers.  Every answer may depend on all the
    calls made before ([list Action], oldest first) and on the call itself.
    [page.close()] and [asyncio.sleep] always complete. *)
Record Env := {
  env_exec : list Action -> Action -> option string;
  env_bool : list Action -> Action -> Answer bool;
  env_text : list Action -> Action -> Answer (option string);
  env_html : list Action -> Action -> Answer string;
  env_count : list Action -> Action -> Answer nat;
  env_url : list Action -> Page -> string;
  env_uuid4 : list Action -> string;
  env_utcnow : list Action -> nat
}.

(** The browser context: its open pages in the order they were opened, and
    the number of pages opened so far, which names the next one. *)
Record Context := {
  pages : list Page;
  opened : nat
}.

Record World := {
  browser_context : option Context;
  trace : list Action
}.

Inductive Outcome (A : Type) :=
| Return (a : A)
| Raise (e : Exn).
Arguments Return {A} a.
Arguments Raise {A} e.

Definition M (A : Type) : Type := World -> Outcome A * World.

Definition ret {A} (a : A) : M A := fun w => (Return a, w).

Definition bind {A B} (m : M A) (k : A -> M B) : M B :=
  fun w =>
    match m w with
    | (Return a, w') => k a w'
    | (Raise e, w') => (Raise e, w')
    end.

Definition raise {A} (e : Exn) : M A := fun w => (Raise e, w).

(** [try: m  except: h] *)
Definition try_except {A} (m : M A) (h : Exn -> M A) : M A :=
  fun w =>
    match m w with
    | (Return a, w') => (Return a, w')
    | (Raise e, w') => h e w'
    end.

(** The result of [m] or the exception it raised, for a handler that needs
    to know how far the [try] block got. *)
Definition attempt {A} (m : M A) : M (Exn + A) :=
  fun w =>
    match m w with
    | (Return a, w') => (Return (inr a), w')
    | (Raise e, w') => (Return (inl e), w')
    end.

Declare Scope py_scope.
Delimit Scope py_scope with py.
Notation "x <- m ;; k" := (bind m (fun x => k))
  (at level 61, m at next level, right associativity) : py_scope.
Notation "m ;; k" := (bind m (fun _ => k))
  (at level 61, right associativity) : py_scope.
Open Scope py_scope.

Definition log (a : Action) (w : World) : World :=
  {| browser_context := browser_context w; trace := trace w ++ [a] |}.

Definition set_pages (ps : list Page) (n : nat) (w : World) : World :=
  {| browser_context := Some {| pages := ps; opened := n |};
     trace := trace w |}.

Definition attribute_error (attr : string) : Exn :=
  Exception ("'NoneType' object has no attribute '" ++ attr ++ "'").

Definition remove_page (p : Page) (ps : list Page) : list Page :=
  filter (fun q => negb (q =? p)%nat) ps.

(** ** The browser calls *)

Section Calls.

Variable E : Env.

(** An awaited call with no result. *)
Definition exec (a : Action) : M unit :=
  fun w =>
    match env_exec E (trace w) a with
    | None => (Return tt, log a w)
    | Some msg => (Raise (Exception msg), log a w)
    end.

(** An awaited call with a result. *)
Definition ask {A} (f : Env -> list Action -> Action -> Answer A)
  (a : Action) : M A :=
  fun w =>
    match f E (trace w) a with
    | Returns v => (Return v, log a w)
    | Throws msg => (Raise (Exception msg), log a w)
    end.

(** [browser_context.pages]: a copy of the list of open pages. *)
Definition context_pages : M (list Page) :=
  fun w =>
    match browser_context w with
    | None => (Raise (attribute_error "pages"), w)
    | Some c => (Return (pages c), w)
    end.

(** [await browser_context.new_page()] *)
Definition new_page : M Page :=
  fun w =>
    match browser_context w with
    | None => (Raise (attribute_error "new_page"), w)
    | Some c =>
        match env_exec E (trace w) NewPage with
        | Some msg => (Raise (Exception msg), log NewPage w)
        | None =>
            (Return (opened c),
             log NewPage
               (set_pages (pages c ++ [opened c]) (S (opened c)) w))
        end
    end.

(** [await page.close()]: the page leaves the context. *)
Definition close (p : Page) : M unit :=
  fun w =>
    (Return tt,
     log (Close p)
       match browser_context w with
       | None => w
       | Some c => set_pages (remove_page p (pages c)) (opened c) w
       end).

(** [await asyncio.sleep(..)] *)
Definition sleep (lo hi : N) : M unit :=
  fun w => (Return tt, log (Sleep lo hi) w).

(** [page.url] *)
Definition page_url (p : Page) : M string :=
  fun w => (Return (env_url E (trace w) p), w).

(** [l[i]] *)
Definition getitem {A} (l : list A) (i : nat) : M A :=
  match nth_error l i with
  | Some x => ret x
  | None => raise (Exception "list index out of range")
  end.

End Calls.

(** ** Requests and responses *)

Record LoginRequest := {
  email : string;
  verification_code : option string
}.

Record OAuthRequest := {
  oauth_url : string
}.

Record OAuthResponse := {
  success : bool;
  code : option string;
  error : option string;
  request_id : string;
  timestamp : nat
}.

Record LoginResponse := {
  status : string;
  message : string;
  session_active : bool
}.

(** The dictionary returned by [get_status]. *)
Record StatusResponse := {
  browser_active : bool;
  pages_open : nat;
  current_url : option string;
  logged_in : bool;
  status_error : option string
}.

(** The double quote, and a text between double quotes. *)
Definition dq : string := String (ascii_of_nat 34) EmptyString.
Definition quoted (s : string) : string := dq ++ s ++ dq.

Definition email_input : string := "input[type=" ++ quoted "email" ++ "]".
Definition continue_button : string :=
  "button:has-text(" ++ quoted "Continue with email" ++ ")".
Definition numeric_input : string :=
  "input[inputmode=" ++ quoted "numeric" ++ "]".

Definition authorize_selectors : list string :=
  [ "button:has-text(" ++ quoted "Authorize" ++ ")";
    "button:has-text(" ++ quoted "Allow" ++ ")";
    "button:has-text(" ++ quoted "Approve" ++ ")";
    "button[type=" ++ quoted "submit" ++ "]:not(:disabled)";
    "button.btn-primary";
    "input[type=" ++ quoted "submit" ++ "][value*=" ++ quoted "Authorize"
      ++ "]" ].

Definition code_selectors : list string :=
  [ "code:has-text(" ++ quoted "" ++ ")";
    "pre:has-text(" ++ quoted "" ++ ")";
    ".authorization-code";
    "input[readonly]:not([type=" ++ quoted "password" ++ "])";
    "span.code";
    "div.code" ].

Definition code_patterns : list (list Re.Item) :=
  [ [Re.Lit "code"; Re.Many1 Re.quote_space_colon;
     Re.Capture Re.token_char 20];
    [Re.Lit "authorization"; Re.Dot; Re.Lit "code";
     Re.Many1 Re.quote_space_colon; Re.Capture Re.token_char 20];
    [Re.Lit ">"; Re.Capture Re.token_char 40; Re.Lit "<"] ].

(** The test [get_status] makes on the URL of the first page. *)
Definition authenticated_url (url : string) : bool :=
  PyStr.contains "claude.ai/chat" url || PyStr.contains "claude.ai/new" url.

(** [bool(request.verification_code)] *)
Definition code_given (c : option string) : bool :=
  match c with
  | None => false
  | Some s => PyStr.truthy s
  end.

(** What FastAPI answers for the outcome of a handler: the status of an
    [HTTPException], 500 for any other exception. *)
Definition http_status {A} (o : Outcome A) : nat :=
  match o with
  | Return _ => 200
  | Raise (HTTPException c _) => c
  | Raise (Exception _) => 500
  end.

(** ** The handlers of [main.py] *)

Section Main.

Variable E : Env.

(** The configured key, [os.getenv("API_KEY", ..)]. *)
Variable API_KEY : string.

(** [APIKeyHeader(name="X-API-Key", auto_error=False)]: the header's value,
    [None] when the header is absent or empty. *)
Definition api_key_header (header : option string) : option string :=
  match header with
  | Some s => if PyStr.truthy s then Some s else None
  | None => None
  end.

Definition verify_api_key (api_key : option string) : M string :=
  match api_key with
  | Some k =>
      if negb (PyStr.truthy k) || negb (String.eqb k API_KEY)
      then raise (HTTPException 401 "Invalid API key")
      else ret k
  | None => raise (HTTPException 401 "Invalid API key")
  end.

(** The loop over [enumerate(str(request.verification_code))]. *)
Fixpoint fill_digits (page : Page) (code_inputs : nat) (i : nat)
  (digits : list string) : M unit :=
  match digits with
  | [] => ret tt
  | digit :: rest =>
      (if (i <? code_inputs)%nat
       then exec E (NthFill page numeric_input i digit)
       else ret tt) ;;
      fill_digits page code_inputs (S i) rest
  end.

(** The second step of [login] up to the wait for the login to complete:
    the email is submitted again and the code is typed, one digit per
    input. *)
Definition enter_code (request : LoginRequest) (page : Page) : M unit :=
  exec E (Goto page "https://claude.ai/login") ;;
  exec E (WaitForLoadState page "networkidle") ;;
  exec E (Fill page email_input (email request)) ;;
  exec E (Click page continue_button) ;;
  exec E (WaitForSelector page numeric_input (Some 10000%N)) ;;
  code_inputs <- ask E env_count (LocatorAll page numeric_input) ;;
  fill_digits page code_inputs 0
    (PyStr.chars (match verification_code request with
                  | Some c => c
                  | None => EmptyString
                  end)) ;;
  exec E (WaitForLoadState page "networkidle") ;;
  sleep 3000%N 3000%N.

(** The [try] block of [login] once [page] is bound. *)
Definition login_steps (request : LoginRequest) (page : Page)
  : M LoginResponse :=
  if negb (code_given (verification_code request)) then
    exec E (Goto page "https://claude.ai/login") ;;
    exec E (WaitForLoadState page "networkidle") ;;
    exec E (Fill page email_input (email request)) ;;
    exec E (Click page continue_button) ;;
    try_except
      (exec E (WaitForSelector page "text=verification code" (Some 10000%N)) ;;
       close page ;;
       ret {| status := "verification_required";
              message := "Check your email for verification code";
              session_active := false |})
      (fun _ =>
         close page ;;
         ret {| status := "error";
                message := "Failed to reach verification screen";
                session_active := false |})
  else
    enter_code request page ;;
    current_url <- page_url E page ;;
    if PyStr.contains "claude.ai/chat" current_url
       || PyStr.contains "claude.ai/new" current_url
    then
      ret {| status := "success";
             message := "Successfully logged in to Claude";
             session_active := true |}
    else
      close page ;;
      ret {| status := "failed";
             message := "Login failed - please check credentials";
             session_active := false |}.

(** [login]: the handler closes the page when [page] is among the locals,
    that is when [new_page] returned. *)
Definition login (request : LoginRequest) : M LoginResponse :=
  r <- attempt (new_page E) ;;
  match r with
  | inl e => raise (HTTPException 500 (exn_str e))
  | inr page =>
      try_except (login_steps request page)
        (fun e => close page ;; raise (HTTPException 500 (exn_str e)))
  end.

Definition OAuthResponse_new (ok : bool) (c err : option string)
  : M OAuthResponse :=
  fun w =>
    (Return {| success := ok; code := c; error := err;
               request_id := env_uuid4 E (trace w);
               timestamp := env_utcnow E (trace w) |}, w).

(** [await page.close() if not pages else None] *)
Definition close_if_new (page : Page) (pages : list Page) : M unit :=
  match pages with
  | [] => close page
  | _ :: _ => ret tt
  end.

(** The loop over [authorize_selectors]; its result is [clicked]. *)
Fixpoint click_first_visible (page : Page) (selectors : list string)
  : M bool :=
  match selectors with
  | [] => ret false
  | selector :: rest =>
      clicked <- try_except
                   (visible <- ask E env_bool (FirstIsVisible page selector) ;;
                    if (visible : bool)
                    then exec E (FirstClick page selector) ;; ret true
                    else ret false)
                   (fun _ => ret false) ;;
      if (clicked : bool) then ret true else click_first_visible page rest
  end.

(** The loop over [code_selectors]; [Some] is the code it returns with. *)
Fixpoint find_code_text (page : Page) (selectors : list string)
  : M (option string) :=
  match selectors with
  | [] => ret None
  | selector :: rest =>
      found <- try_except
                 (visible <- ask E env_bool (FirstIsVisible page selector) ;;
                  if (visible : bool) then
                    code_text <- ask E env_text
                                   (FirstTextContent page selector) ;;
                    match code_text with
                    | Some t =>
                        if PyStr.truthy t && (10 <? String.length t)%nat
                        then ret (Some (PyStr.strip t))
                        else ret None
                    | None => ret None
                    end
                  else ret None)
                 (fun _ => ret None) ;;
      match found with
      | Some c => ret (Some c)
      | None => find_code_text page rest
      end
  end.

(** The loop over [code_patterns]. *)
Fixpoint search_patterns (patterns : list (list Re.Item))
  (page_content : string) : option string :=
  match patterns with
  | [] => None
  | pattern :: rest =>
      match Re.search pattern page_content with
      | Some c => Some c
      | None => search_patterns rest page_content
      end
  end.

(** The inner [try] block of the extraction from the page. *)
Definition extract_from_page (page : Page) : M (option string) :=
  found <- find_code_text page code_selectors ;;
  match found with
  | Some c => ret (Some c)
  | None =>
      page_content <- ask E env_html (Content page) ;;
      ret (search_patterns code_patterns page_content)
  end.

(** [current_url.split("code=")[1].split("&")[0]] *)
Definition code_of_url (current_url : string) : M string :=
  part <- getitem (PyStr.split "code=" current_url) 1 ;;
  getitem (PyStr.split "&" part) 0.

(** The extraction of the code, after the click and the wait. *)
Definition extract_code (page : Page) (pages : list Page)
  : M OAuthResponse :=
  current_url <- page_url E page ;;
  if PyStr.contains "code=" current_url then
    c <- code_of_url current_url ;;
    OAuthResponse_new true (Some c) None
  else
    found <- try_except (extract_from_page page) (fun _ => ret None) ;;
    match found with
    | Some c => OAuthResponse_new true (Some c) None
    | None =>
        close_if_new page pages ;;
        OAuthResponse_new false None
          (Some "Could not extract authorization code from response")
    end.

(** [await page.wait_for_load_state('networkidle')] and the sleep that
    follow the click. *)
Definition settle (page : Page) : M unit :=
  exec E (WaitForLoadState page "networkidle") ;;
  sleep 2000%N 2000%N.

(** [authorize_oauth] from the search of the authorize button on. *)
Definition after_navigation (page : Page) (pages : list Page)
  : M OAuthResponse :=
  clicked <- click_first_visible page authorize_selectors ;;
  if negb clicked then
    page_text <- ask E env_text (TextContent page "body") ;;
    match page_text with
    | Some t => ret (PyStr.take 500 t)
    | None => raise (Exception "'NoneType' object is not subscriptable")
    end ;;
    close_if_new page pages ;;
    OAuthResponse_new false None
      (Some "Could not find authorize button on page")
  else
    settle page ;;
    extract_code page pages.

(** The page [authorize_oauth] works on: the first open page, or a new
    one. *)
Definition open_page (pages : list Page) : M Page :=
  match pages with
  | p :: _ => ret p
  | [] => new_page E
  end.

Definition navigate (request : OAuthRequest) (page : Page) : M unit :=
  exec E (Goto page (oauth_url request)) ;;
  exec E (WaitForLoadState page "networkidle").

(** The [try] block of [authorize_oauth] once [page] is bound. *)
Definition authorize_steps (request : OAuthRequest) (page : Page)
  (pages : list Page) : M OAuthResponse :=
  navigate request page ;;
  url <- page_url E page ;;
  if PyStr.contains "login" url then
    close_if_new page pages ;;
    raise (HTTPException 401
             "Not logged in. Please use /login endpoint first.")
  else
    after_navigation page pages.

(** The [except] clauses of [authorize_oauth]; [page] is [None] while the
    local is unbound or still [None]. *)
Definition authorize_except (page : option Page) (pages : list Page)
  (e : Exn) : M OAuthResponse :=
  match e with
  | HTTPException _ _ => raise e
  | Exception _ =>
      match page, pages with
      | Some p, [] => close p
      | _, _ => ret tt
      end ;;
      OAuthResponse_new false None (Some (exn_str e))
  end.

Definition authorize_oauth (request : OAuthRequest) : M OAuthResponse :=
  r <- attempt context_pages ;;
  match r with
  | inl e => authorize_except None [] e
  | inr pages =>
      r' <- attempt (open_page pages) ;;
      match r' with
      | inl e => authorize_except None pages e
      | inr page =>
          try_except (authorize_steps request page pages)
            (authorize_except (Some page) pages)
      end
  end.

Definition get_status : M StatusResponse :=
  try_except
    (fun w =>
       let pages := match browser_context w with
                    | Some c => pages c
                    | None => []
                    end in
       let current_page := hd_error pages in
       (Return {| browser_active :=
                    match browser_context w with
                    | Some _ => true
                    | None => false
                    end;
                  pages_open := List.length pages;
                  current_url :=
                    match current_page with
                    | Some p => Some (env_url E (trace w) p)
                    | None => None
                    end;
                  logged_in :=
                    match current_page with
                    | Some p => authenticated_url (env_url E (trace w) p)
                    | None => false
                    end;
                  status_error := None |}, w))
    (fun e =>
       ret {| browser_active := false; pages_open := 0;
              current_url := None; logged_in := false;
              status_error := Some (exn_str e) |}).

(** The routes: [Depends(verify_api_key)] runs before the handler. *)
Definition post_login (header : option string) (request : LoginRequest)
  : M LoginResponse :=
  verify_api_key (api_key_header header) ;; login request.

Definition post_oauth_authorize (header : option string)
  (request : OAuthRequest) : M OAuthResponse :=
  verify_api_key (api_key_header header) ;; authorize_oauth request.

Definition get_status_route (header : option string) : M StatusResponse :=
  verify_api_key (api_key_header header) ;; get_status.

End Main.

(** ** The login handler of [main_visual.py] *)

Module Visual.

Section Login.

Variable E : Env.

(** The loop typing the email one character at a time. *)
Fixpoint type_email (page : Page) (chars : list string) : M unit :=
  match chars with
  | [] => ret tt
  | char :: rest =>
      exec E (HandleType page email_input char) ;;
      sleep 50%N 150%N ;;
      type_email page rest
  end.

(** The [try] block of [login] once [page] is bound.  With a verification
    code the function logs a line and falls off its end, returning
    [None]. *)
Definition login_steps (request : LoginRequest) (page : Page)
  : M (option LoginResponse) :=
  sleep 1000%N 2000%N ;;
  exec E (MouseMove page) ;;
  if negb (code_given (verification_code request)) then
    exec E (Goto page "https://claude.ai/login") ;;
    sleep 2000%N 4000%N ;;
    exec E (WaitForSelector page email_input (Some 10000%N)) ;;
    exec E (HandleClick page email_input) ;;
    sleep 500%N 1000%N ;;
    type_email page (PyStr.chars (email request)) ;;
    sleep 1000%N 2000%N ;;
    exec E (WaitForSelector page continue_button None) ;;
    exec E (HandleClick page continue_button) ;;
    sleep 3000%N 3000%N ;;
    url <- page_url E page ;;
    challenge <- (if PyStr.contains "challenge" url then ret true
                  else ask E env_bool
                         (LocatorIsVisible page
                            ("iframe[title*=" ++ quoted "challenge" ++ "]"))) ;;
    if (challenge : bool) then
      close page ;;
      ret (Some {| status := "challenge_detected";
                   message := "Cloudflare challenge detected. Please use /login/manual for manual login.";
                   session_active := false |})
    else
      try_except
        (exec E (WaitForSelector page "text=verification code"
                   (Some 10000%N)) ;;
         close page ;;
         ret (Some {| status := "verification_required";
                      message := "Check your email for verification code";
                      session_active := false |}))
        (fun _ =>
           close page ;;
           ret (Some {| status := "error";
                        message := "Failed to reach verification screen - may be blocked";
                        session_active := false |}))
  else
    ret None.

Definition login (request : LoginRequest) : M (option LoginResponse) :=
  r <- attempt (new_page E) ;;
  match r with
  | inl e => raise (HTTPException 500 (exn_str e))
  | inr page =>
      try_except (login_steps request page)
        (fun e => close page ;; raise (HTTPException 500 (exn_str e)))
  end.

End Login.

(** The dictionary returned by [manual_login]. *)
Record ManualResponse := {
  manual_status : string;
  manual_message : string;
  instructions : list string
}.

(** The dictionary returned by [get_status]; the dictionary of its
    [except] clause has no [mode]. *)
Record StatusResponse := {
  browser_active : bool;
  pages_open : nat;
  current_url : option string;
  logged_in : bool;
  mode : option string;
  status_error : option string
}.

Section Others.

Variable E : Env.

(** [os.getenv("HEADLESS", "true").lower() == "true"] *)
Variable HEADLESS : bool.

Definition manual_login : M ManualResponse :=
  try_except
    (page <- new_page E ;;
     sleep 1000%N 3000%N ;;
     exec E (Goto page "https://claude.ai/login") ;;
     ret {| manual_status := "opened";
            manual_message :=
              "Login page opened. Please complete login manually.";
            instructions :=
              [ "1. Look at the browser window (or connect via VNC on port 5900)";
                "2. Complete the login process manually";
                "3. Once logged in, use the /status endpoint to verify";
                "4. Then you can use /oauth/authorize for OAuth flows" ] |})
    (fun e => raise (HTTPException 500 (exn_str e))).

(** [authorize_oauth]: after the navigation and a pause the function falls
    off its end, returning [None]. *)
Definition authorize_oauth (request : OAuthRequest)
  : M (option OAuthResponse) :=
  try_except
    (pages <- context_pages ;;
     page <- open_page E pages ;;
     sleep 1000%N 2000%N ;;
     exec E (Goto page (oauth_url request)) ;;
     sleep 2000%N 4000%N ;;
     ret None)
    (fun e =>
       r <- OAuthResponse_new E false None (Some (exn_str e)) ;;
       ret (Some r)).

Definition get_status : M StatusResponse :=
  try_except
    (fun w =>
       let pages := match browser_context w with
                    | Some c => pages c
                    | None => []
                    end in
       let current_page := hd_error pages in
       let logged_in :=
         match current_page with
         | Some p =>
             let current_url := env_url E (trace w) p in
             PyStr.contains "claude.ai/chat" current_url
             || PyStr.contains "claude.ai/new" current_url
         | None => false
         end in
       (Return {| browser_active :=
                    match browser_context w with
                    | Some _ => true
                    | None => false
                    end;
                  pages_open := List.length pages;
                  current_url :=
                    match current_page with
                    | Some p => Some (env_url E (trace w) p)
                    | None => None
                    end;
                  logged_in := logged_in;
                  mode := Some (if HEADLESS then "headless" else "visual");
                  status_error := None |}, w))
    (fun e =>
       ret {| browser_active := false; pages_open := 0;
              current_url := None; logged_in := false; mode := None;
              status_error := Some (exn_str e) |}).

End Others.

End Visual.

(** ** Vocabulary of the properties *)

(** The open pages of a world. *)
Definition open_pages (w : World) : list Page :=
  match browser_context w with
  | Some c => pages c
  | None => []
  end.

(** The state left by [startup_event]: a context without pages, and no call
    made yet. *)
Definition startup_world : World :=
  {| browser_context := Some {| pages := []; opened := 0 |}; trace := [] |}.

(** The [try] blocks of [login] and [authorize_oauth], each as one
    computation. *)
Definition login_block (E : Env) (request : LoginRequest)
  : M LoginResponse :=
  page <- new_page E ;; login_steps E request page.

Definition authorize_block (E : Env) (request : OAuthRequest)
  : M OAuthResponse :=
  pages <- context_pages ;;
  page <- open_page E pages ;;
  authorize_steps E request page pages.

(** The second step of [login] got its page and ran up to the end of the
    wait for the login to complete, leaving the world [w2]. *)
Definition settled (E : Env) (request : LoginRequest) (w : World)
  (page : Page) (w2 : World) : Prop :=
  exists w0,
    new_page E w = (Return page, w0) /\
    enter_code E request page w0 = (Return tt, w2).

(** [authorize_oauth] got its page and the navigation to the caller's URL
    completed, leaving the world [w1]. *)
Definition arrived (E : Env) (request : OAuthRequest) (w : World)
  (page : Page) (pages : list Page) (w1 : World) : Prop :=
  exists w0,
    context_pages w = (Return pages, w) /\
    open_page E pages w = (Return page, w0) /\
    navigate E request page w0 = (Return tt, w1).

(** [authorize_oauth] got as far as the extraction of the code: it arrived
    on a page that is no login page, a candidate button was clicked and the
    wait after the click completed, leaving the world [w3]. *)
Definition reaches_extraction (E : Env) (request : OAuthRequest) (w : World)
  (page : Page) (pages : list Page) (w3 : World) : Prop :=
  exists w1 w2,
    arrived E request w page pages w1 /\
    PyStr.contains "login" (env_url E (trace w1) page) = false /\
    click_first_visible E page authorize_selectors w1 = (Return true, w2) /\
    settle E page w2 = (Return tt, w3).

(** The world [w] with the trace [t]. *)
Definition with_trace (w : World) (t : list Action) : World :=
  {| browser_context := browser_context w; trace := t |}.

(** One candidate selector tried without a completed click, from the trace
    [t] to the trace reached: the visibility test raised, or answered no, or
    the click raised. *)
Inductive passed_over (E : Env) (page : Page) (selector : string)
  (t : list Action) : list Action -> Prop :=
| po_test_raised msg :
    env_bool E t (FirstIsVisible page selector) = Throws msg ->
    passed_over E page selector t (t ++ [FirstIsVisible page selector])
| po_hidden :
    env_bool E t (FirstIsVisible page selector) = Returns false ->
    passed_over E page selector t (t ++ [FirstIsVisible page selector])
| po_click_raised msg :
    env_bool E t (FirstIsVisible page selector) = Returns true ->
    env_exec E (t ++ [FirstIsVisible page selector])
      (FirstClick page selector) = Some msg ->
    passed_over E page selector t
      (t ++ [FirstIsVisible page selector; FirstClick page selector]).

Inductive all_passed_over (E : Env) (page : Page)
  : list string -> list Action -> list Action -> Prop :=
| apo_nil t : all_passed_over E page [] t t
| apo_cons selector rest t t1 t2 :
    passed_over E page selector t t1 ->
    all_passed_over E page rest t1 t2 ->
    all_passed_over E page (selector :: rest) t t2.

(** At the trace [t] the element of [selector] is visible and the click on
    it completes. *)
Definition pressed (E : Env) (page : Page) (selector : string)
  (t : list Action) : Prop :=
  env_bool E t (FirstIsVisible page selector) = Returns true /\
  env_exec E (t ++ [FirstIsVisible page selector])
    (FirstClick page selector) = None.

(** The selectors clicked along a trace, in order. *)
Fixpoint clicked_selectors (t : list Action) : list string :=
  match t with
  | [] => []
  | FirstClick _ s :: t' => s :: clicked_selectors t'
  | _ :: t' => clicked_selectors t'
  end.

Definition is_click (a : Action) : bool :=
  match a with
  | FirstClick _ _ => true
  | _ => false
  end.

(** The calls of the second extraction strategy. *)
Definition is_element_probe (a : Action) : bool :=
  match a with
  | FirstIsVisible _ _ | FirstTextContent _ _ => true
  | _ => false
  end.

(** A call made on the page [p] that neither opens nor closes a page. *)
Definition on_page (p : Page) (a : Action) : bool :=
  match a with
  | NewPage | Close _ => false
  | Sleep _ _ => true
  | Goto q _ | WaitForLoadState q _ | Fill q _ _ | Click q _
  | WaitForSelector q _ _ | LocatorAll q _ | NthFill q _ _ _
  | FirstIsVisible q _ | FirstClick q _ | FirstTextContent q _
  | TextContent q _ | Content q | LocatorIsVisible q _ | HandleClick q _
  | HandleType q _ _ | MouseMove q => (q =? p)%nat
  end.

(** A computation only adds calls satisfying [P] to the trace, and leaves
    the browser context related by [R]. *)
Definition respects (R : option Context -> option Context -> Prop)
  (P : Action -> bool) {A} (m : M A) : Prop :=
  forall w o w',
    m w = (o, w') ->
    R (browser_context w) (browser_context w') /\
    exists l, trace w' = (trace w ++ l)%list /\ forallb P l = true.

(** A computation raises only exceptions satisfying [Q]. *)
Definition raises_only (Q : Exn -> Prop) {A} (m : M A) : Prop :=
  forall w e w', m w = (Raise e, w') -> Q e.

(** An exception that is no [HTTPException]. *)
Definition is_plain (e : Exn) : Prop :=
  match e with
  | Exception _ => True
  | HTTPException _ _ => False
  end.

(** The rejection of [authorize_oauth] on a login page. *)
Definition not_logged_in : Exn :=
  HTTPException 401 "Not logged in. Please use /login endpoint first.".

Definition plain_or_rejection (e : Exn) : Prop :=
  is_plain e \/ e = not_logged_in.

(** A character that does not occur in [p]. *)
Fixpoint absent (c : ascii) (p : string) : bool :=
  match p with
  | EmptyString => true
  | String a p' => negb (Ascii.eqb a c) && absent c p'
  end.

Definition single (c : ascii) : string := String c EmptyString.

(** *** The words of the specification *)

Module Spec.

Definition hex_digit (c : ascii) : option nat :=
  let n := nat_of_ascii c in
  if ((48 <=? n) && (n <=? 57))%nat then Some (n - 48)
  else if ((65 <=? n) && (n <=? 70))%nat then Some (n - 55)
  else if ((97 <=? n) && (n <=? 102))%nat then Some (n - 87)
  else None.

(** URL-decoding: every [%] followed by two hexadecimal digits stands for
    the character of that code. *)
Fixpoint url_decode (s : string) : string :=
  match s with
  | EmptyString => EmptyString
  | String c s' =>
      if (nat_of_ascii c =? 37)%nat then
        match s' with
        | String h (String l rest) =>
            match hex_digit h, hex_digit l with
            | Some a, Some b =>
                String (ascii_of_nat (16 * a + b)) (url_decode rest)
            | _, _ => String c (url_decode s')
            end
        | _ => String c (url_decode s')
        end
      else String c (url_decode s')
  end.

(** The value of the specification: what follows the first [code=],
    truncated at the next [&] and URL-decoded. *)
Definition code_value (url : string) : option string :=
  match PyStr.after_first "code=" url with
  | Some rest => Some (url_decode (PyStr.before_first "&" rest))
  | None => None
  end.

(** A request with this header gets past the key check. *)
Definition passes_auth (API_KEY : string) (header : option string)
  (w : World) : Prop :=
  exists k, verify_api_key API_KEY (api_key_header header) w = (Return k, w).

(** The claim on the code of the URL, as the specification words it: when
    the extraction is reached and the final URL has a [code=], the response
    carries the value of the specification. *)
Definition code_as_specified (E : Env) (request : OAuthRequest) (w : World)
  : Prop :=
  forall page pages w3 v,
    reaches_extraction E request w page pages w3 ->
    code_value (env_url E (trace w3) page) = Some v ->
    exists r w',
      authorize_oauth E request w = (Return r, w') /\
      success r = true /\ code r = Some v.

(** The claim on the button, as the specification words it: the clicks of
    the call are the one click on the first candidate whose element is
    visible. *)
Definition first_visible_clicked (visible : string -> bool)
  (t : list Action) : Prop :=
  clicked_selectors t
  = match find visible authorize_selectors with
    | Some s => [s]
    | None => []
    end.

(** The claim on the first step of the login, as the specification words
    it. *)
Definition first_step_status (o : Outcome LoginResponse) : Prop :=
  forall r,
    o = Return r ->
    status r = "verification_required" \/ status r = "challenge_detected".


(** A response that carries no code. *)
Definition no_code (o : Outcome OAuthResponse) : Prop :=
  match o with
  | Return r => success r = false /\ code r = None
  | Raise (HTTPException c _) => c = 401
  | Raise (Exception _) => False
  end.

End Spec.

(** *** Sample environments *)

Module Sample.

(** A browser whose calls all complete: nothing is visible, texts and pages
    are empty, and every page is at [url]. *)
Definition still (url : string) : Env :=
  {| env_exec := fun _ _ => None;
     env_bool := fun _ _ => Returns false;
     env_text := fun _ _ => Returns (Some EmptyString);
     env_html := fun _ _ => Returns EmptyString;
     env_count := fun _ _ => Returns 6;
     env_url := fun _ _ => url;
     env_uuid4 := fun _ => "6f1c2a7e-58f0-4a53-9d0b-0c7a3a1d2b44";
     env_utcnow := fun _ => 0 |}.

(** A site with a consent page at [landing]: the elements of the selectors
    in [visible] are visible, a click on one of the selectors in [dead]
    raises, and after a completed click the page is at [final]. *)
Definition completed_click (dead : list string) (t : list Action) : bool :=
  existsb (fun a => match a with
                    | FirstClick _ s => negb (existsb (String.eqb s) dead)
                    | _ => false
                    end) t.

Definition consent (landing final : string) (visible dead : list string)
  (text : option string) (html : string) : Env :=
  {| env_exec := fun _ a =>
       match a with
       | FirstClick _ s =>
           if existsb (String.eqb s) dead
           then Some "Timeout 30000ms exceeded."
           else None
       | _ => None
       end;
     env_bool := fun _ a =>
       match a with
       | FirstIsVisible _ s => Returns (existsb (String.eqb s) visible)
       | _ => Returns false
       end;
     env_text := fun _ a =>
       match a with
       | TextContent _ _ => Returns (Some "Authorize this application?")
       | _ => Returns text
       end;
     env_html := fun _ _ => Returns html;
     env_count := fun _ _ => Returns 6;
     env_url := fun t _ => if completed_click dead t then final else landing;
     env_uuid4 := fun _ => "6f1c2a7e-58f0-4a53-9d0b-0c7a3a1d2b44";
     env_utcnow := fun _ => 0 |}.

(** A login page on which the awaited selector of [stuck] never shows. *)
Definition login_site (after : string) (stuck : string) : Env :=
  {| env_exec := fun _ a =>
       match a with
       | WaitForSelector _ s _ =>
           if String.eqb s stuck then Some "Timeout 10000ms exceeded."
           else None
       | _ => None
       end;
     env_bool := fun _ _ => Returns false;
     env_text := fun _ _ => Returns None;
     env_html := fun _ _ => Returns EmptyString;
     env_count := fun _ _ => Returns 6;
     env_url := fun _ _ => after;
     env_uuid4 := fun _ => "6f1c2a7e-58f0-4a53-9d0b-0c7a3a1d2b44";
     env_utcnow := fun _ => 0 |}.

(** A browser that lost its connection: every call raises. *)
Definition broken : Env :=
  {| env_exec := fun _ _ => Some "Connection closed";
     env_bool := fun _ _ => Throws "Connection closed";
     env_text := fun _ _ => Throws "Connection closed";
     env_html := fun _ _ => Throws "Connection closed";
     env_count := fun _ _ => Throws "Connection closed";
     env_url := fun _ _ => "about:blank";
     env_uuid4 := fun _ => "6f1c2a7e-58f0-4a53-9d0b-0c7a3a1d2b44";
     env_utcnow := fun _ => 0 |}.

(** A consent page with a visible primary button, whose click leads to
    [final]. *)
Definition app (final : string) : Env :=
  consent "https://claude.ai/oauth/authorize" final ["button.btn-primary"]
    [] None EmptyString.

Definition authorize_button : string :=
  "button:has-text(" ++ quoted "Authorize" ++ ")".

(** A consent page on which the [Authorize] button and the primary button
    are visible, and the click on the [Authorize] button raises. *)
Definition blocked_visible (s : string) : bool :=
  existsb (String.eqb s) [authorize_button; "button.btn-primary"].

Definition blocked : Env :=
  consent "https://claude.ai/oauth/authorize"
    "https://app.example/cb?code=abc123&state=x"
    [authorize_button; "button.btn-primary"] [authorize_button]
    None EmptyString.

(** A consent page whose click leads to a page that shows the code in an
    element of class [authorization-code]. *)
Definition code_shown : Env :=
  consent "https://claude.ai/oauth/authorize" "https://app.example/done"
    ["button.btn-primary"; ".authorization-code"] []
    (Some "  auth-0123456789abcdef  ") EmptyString.

Definition authorize_request : OAuthRequest :=
  {| oauth_url := "https://claude.ai/oauth/authorize" |}.

(** A consent page whose click leads to a page with an empty, indented
    [code] element. *)
Definition blank_code : Env :=
  consent "https://claude.ai/oauth/authorize" "https://app.example/done"
    ["button.btn-primary"; "code:has-text(" ++ quoted "" ++ ")"] []
    (Some "            ") EmptyString.

(** A site of its own: its consent page needs no login at [claude.ai], and
    the click on its [Allow] button redirects with a code. *)
Definition foreign : Env :=
  consent "https://auth.example/oauth/authorize?client_id=app"
    "https://app.example/cb?code=abc123&state=x"
    ["button:has-text(" ++ quoted "Allow" ++ ")"] [] None EmptyString.

Definition foreign_request : OAuthRequest :=
  {| oauth_url := "https://auth.example/oauth/authorize?client_id=app" |}.

(** The world before [startup_event] has run: the global
    [browser_context] is still [None]. *)
Definition not_started : World :=
  {| browser_context := None; trace := [] |}.

Definition one_page (p : Page) (t : list Action) : World :=
  {| browser_context := Some {| pages := [p]; opened := S p |};
     trace := t |}.

End Sample.

(** ** Vocabulary of the further properties *)

(** Every open page was opened before the page the context opens next, so
    the name of a new page is the name of no open page. *)
Definition fresh_pages (w : World) : Prop :=
  forall c,
    browser_context w = Some c -> Forall (fun p => p < opened c) (pages c).

(** A response of [authorize_oauth] is a success with a code and no error,
    or a failure with an error and no code. *)
Definition consistent (r : OAuthResponse) : Prop :=
  (success r = true /\ (exists c, code r = Some c) /\ error r = None) \/
  (success r = false /\ code r = None /\ exists e, error r = Some e).

(** A response of [login] says [success] exactly when it says that the
    session is active. *)
Definition login_consistent (r : LoginResponse) : Prop :=
  (status r = "success" /\ session_active r = true) \/
  (status r <> "success" /\ session_active r = false).

(** All the characters of [s] are in the class [cls]. *)
Fixpoint all_chars (cls : ascii -> bool) (s : string) : bool :=
  match s with
  | EmptyString => true
  | String c s' => cls c && all_chars cls s'
  end.

Definition is_capture (it : Re.Item) : Prop :=
  match it with
  | Re.Capture _ _ => True
  | _ => False
  end.

(** A group of the code patterns: at least 20 characters of the class
    [A-Za-z0-9_-]. *)
Definition token_capture (it : Re.Item) : Prop :=
  match it with
  | Re.Capture cls min => cls = Re.token_char /\ 20 <= min
  | _ => True
  end.

(** The fills of the loop over the digits, from the index [i] on: the
    digits paired with the inputs, as far as both last. *)
Definition digit_fills (page : Page) (code_inputs i : nat)
  (digits : list string) : list Action :=
  map (fun x => NthFill page numeric_input (fst x) (snd x))
    (combine (seq i (code_inputs - i)) digits).



(** A call of [login] or [manual_login] on its own page [p]: opening it,
    working on it, closing it. *)
Definition own_page (p : Page) (a : Action) : bool :=
  match a with
  | NewPage => true
  | Close q => (q =? p)%nat
  | _ => on_page p a
  end.

(** ** The test client of [test_client.py]

    The client talks to a terminal and to the API.  A reply of the API is a
    JSON object; a value that is itself a list or an object is kept by its
    truth value and its text.  The lines typed are texts of code points
    below 256, and the texts printed are kept as the bytes of the source. *)

Module Client.

Inductive Json :=
| JNull
| JBool (b : bool)
| JNum (n : nat)
| JStr (s : string)
| JOther (truth : bool) (text : string).

Definition Dict := list (string * Json).

(** [d.get(key)] *)
Fixpoint get (d : Dict) (key : string) : option Json :=
  match d with
  | [] => None
  | (k, v) :: d' => if String.eqb k key then Some v else get d' key
  end.

(** [bool(v)] *)
Definition truthy (v : Json) : bool :=
  match v with
  | JNull => false
  | JBool b => b
  | JNum n => negb (n =? 0)%nat
  | JStr s => PyStr.truthy s
  | JOther b _ => b
  end.

(** [bool(d.get(key))] *)
Definition truthy_at (d : Dict) (key : string) : bool :=
  match get d key with
  | Some v => truthy v
  | None => false
  end.

(** [bool(result)] for the result of a call, [None] or a dictionary. *)
Definition answered (result : option Dict) : bool :=
  match result with
  | Some (_ :: _) => true
  | _ => false
  end.

(** [str(v)], as an f-string prints it. *)
Definition str (v : Json) : string :=
  match v with
  | JNull => "None"
  | JBool true => "True"
  | JBool false => "False"
  | JNum n => nat_to_string n
  | JStr s => s
  | JOther _ text => text
  end.

Definition str_at (d : Dict) (key : string) : string :=
  match get d key with
  | Some v => str v
  | None => "None"
  end.

(** [d.get(key) == s] *)
Definition is_at (d : Dict) (key s : string) : bool :=
  match get d key with
  | Some (JStr v) => String.eqb v s
  | _ => false
  end.

Inductive Method := GET | POST.

Record Request := {
  method : Method;
  url : string;
  headers : list (string * string);
  json : option Dict;
  timeout : option nat
}.

(** The terminal and the network: the lines still to be typed, the texts
    printed so far, and the requests sent so far. *)
Record Terminal := {
  stdin : list string;
  stdout : list string;
  sent : list Request
}.

Definition C (A : Type) : Type := Terminal -> Outcome A * Terminal.

Definition ret {A} (a : A) : C A := fun t => (Return a, t).

Definition bind {A B} (m : C A) (k : A -> C B) : C B :=
  fun t =>
    match m t with
    | (Return a, t') => k a t'
    | (Raise e, t') => (Raise e, t')
    end.

Definition raise {A} (e : Exn) : C A := fun t => (Raise e, t).

Definition try_except {A} (m : C A) (h : Exn -> C A) : C A :=
  fun t =>
    match m t with
    | (Return a, t') => (Return a, t')
    | (Raise e, t') => h e t'
    end.

Declare Scope client_scope.
Delimit Scope client_scope with client.
Notation "x <- m ;; k" := (bind m (fun x => k))
  (at level 61, m at next level, right associativity) : client_scope.
Notation "m ;; k" := (bind m (fun _ => k))
  (at level 61, right associativity) : client_scope.

(** The line feed. *)
Definition nl : string := String (ascii_of_nat 10) EmptyString.

(** [s * n] *)
Fixpoint times (s : string) (n : nat) : string :=
  match n with
  | O => EmptyString
  | S n' => s ++ times s n'
  end.

(** [s[-n:]] *)
Definition last_chars (n : nat) (s : string) : string :=
  PyStr.drop (String.length s - n) s.

(** The key as the banner of [main] prints it:
    ['*' * (len(API_KEY) - 4) + API_KEY[-4:]]. *)
Definition masked (key : string) : string :=
  times "*" (String.length key - 4) ++ last_chars 4 key.

Definition print (s : string) : C unit :=
  fun t =>
    (Return tt,
     {| stdin := stdin t; stdout := stdout t ++ [s]; sent := sent t |}).

(** [input(prompt)]: the prompt is written and a line is read; at the end
    of the input it raises [EOFError]. *)
Definition input (prompt : string) : C string :=
  fun t =>
    match stdin t with
    | [] =>
        (Raise (Exception "EOF when reading a line"),
         {| stdin := []; stdout := stdout t ++ [prompt]; sent := sent t |})
    | line :: rest =>
        (Return line,
         {| stdin := rest; stdout := stdout t ++ [prompt]; sent := sent t |})
    end.

(** [d[key]] *)
Definition getitem (d : Dict) (key : string) : C Json :=
  match get d key with
  | Some v => ret v
  | None => raise (Exception ("'" ++ key ++ "'"))
  end.

Section Calls.

Local Open Scope client_scope.

(** The API as the client sees it: the reply to a request, which may depend
    on the requests sent before; [Throws] when the request or the decoding
    of the reply raises. *)
Variable api : list Request -> Request -> Answer Dict.

(** [os.getenv("API_BASE_URL", ..)] and [os.getenv("API_KEY", ..)] *)
Variable API_BASE_URL : string.
Variable API_KEY : string.

(** [requests.get(..).json()] and [requests.post(..).json()] *)
Definition send (r : Request) : C Dict :=
  fun t =>
    let t' := {| stdin := stdin t; stdout := stdout t;
                 sent := sent t ++ [r] |} in
    match api (sent t) r with
    | Returns d => (Return d, t')
    | Throws msg => (Raise (Exception msg), t')
    end.

Definition get_status (headers : list (string * string))
  : C (option Dict) :=
  try_except
    (response <- send {| method := GET; url := API_BASE_URL ++ "/status";
                         headers := headers; json := None;
                         timeout := None |} ;;
     ret (Some response))
    (fun e => print ("❌ Status check failed: " ++ exn_str e) ;; ret None).

Definition login (email : string) (verification_code : option string)
  : C (option Dict) :=
  let headers := [("X-API-Key", API_KEY);
                  ("Content-Type", "application/json")] in
  let data :=
    ([("email", JStr email)]
     ++ match verification_code with
        | Some c =>
            if PyStr.truthy c then [("verification_code", JStr c)] else []
        | None => []
        end)%list in
  try_except
    (response <- send {| method := POST; url := API_BASE_URL ++ "/login";
                         headers := headers; json := Some data;
                         timeout := Some 30 |} ;;
     ret (Some response))
    (fun e => print ("❌ Login failed: " ++ exn_str e) ;; ret None).

Definition authorize_oauth (oauth_url : string) : C (option Dict) :=
  let headers := [("X-API-Key", API_KEY);
                  ("Content-Type", "application/json")] in
  let data := [("oauth_url", JStr oauth_url)] in
  try_except
    (print "🔄 Processing OAuth authorization..." ;;
     response <- send {| method := POST;
                         url := API_BASE_URL ++ "/oauth/authorize";
                         headers := headers; json := Some data;
                         timeout := Some 60 |} ;;
     ret (Some response))
    (fun e =>
       print ("❌ OAuth authorization failed: " ++ exn_str e) ;; ret None).

(** The line [print(f"Response: {result['status']} - {result['message']}")] *)
Definition print_response (result : Dict) : C unit :=
  status <- getitem result "status" ;;
  message <- getitem result "message" ;;
  print ("Response: " ++ str status ++ " - " ++ str message).

Definition interactive_login : C bool :=
  print (nl ++ "🔐 Login to Claude") ;;
  print (times "-" 40) ;;
  line <- input "Enter your Claude email: " ;;
  let email := PyStr.strip line in
  if negb (PyStr.truthy email) then
    print "❌ Email is required!" ;; ret false
  else
    print (nl ++ "📧 Requesting verification code...") ;;
    result <- login email None ;;
    match result with
    | Some (item :: items) =>
        let result := item :: items in
        print_response result ;;
        if negb (is_at result "status" "verification_required") then
          print "❌ Unexpected response" ;; ret false
        else
          line <- input (nl ++ "📱 Enter the 6-digit verification code from your email: ") ;;
          let code := PyStr.strip line in
          if negb (PyStr.truthy code)
             || negb (String.length code =? 6)%nat then
            print "❌ Invalid verification code!" ;; ret false
          else
            print (nl ++ "🔄 Completing login...") ;;
            result <- login email (Some code) ;;
            match result with
            | Some (item :: items) =>
                let result := item :: items in
                print_response result ;;
                if is_at result "status" "success" then
                  print "✅ Login successful!" ;; ret true
                else
                  print "❌ Login failed" ;; ret false
            | _ => ret false
            end
    | _ => ret false
    end.

(** One turn of the loop of [main]; [true] when the loop is left. *)
Definition menu_turn (headers : list (string * string)) : C bool :=
  print (nl ++ "📋 Options:") ;;
  print "1. Login to Claude" ;;
  print "2. Check session status" ;;
  print "3. Process OAuth URL" ;;
  print "4. Exit" ;;
  line <- input (nl ++ "Select an option (1-4): ") ;;
  let choice := PyStr.strip line in
  if String.eqb choice "1" then
    interactive_login ;; ret false
  else if String.eqb choice "2" then
    status <- get_status headers ;;
    match status with
    | Some (item :: items) =>
        let status := item :: items in
        print (nl ++ "📊 Session Status:") ;;
        print ("  Browser active: " ++ str_at status "browser_active") ;;
        print ("  Pages open: " ++ str_at status "pages_open") ;;
        print ("  Current URL: " ++ str_at status "current_url") ;;
        print ("  Logged in: " ++ str_at status "logged_in") ;;
        ret false
    | _ => ret false
    end
  else if String.eqb choice "3" then
    status <- get_status headers ;;
    if negb (answered status)
       || negb match status with
               | Some d => truthy_at d "logged_in"
               | None => false
               end
    then
      print "❌ Not logged in! Please login first (option 1)" ;; ret false
    else
      line <- input (nl ++ "🔗 Enter the Claude OAuth URL: ") ;;
      let oauth_url := PyStr.strip line in
      if negb (PyStr.truthy oauth_url) then
        print "❌ No URL provided!" ;; ret false
      else
        result <- authorize_oauth oauth_url ;;
        match result with
        | Some (item :: items) =>
            let result := item :: items in
            if truthy_at result "success" then
              print (nl ++ "✅ Success!") ;;
              print ("  Authorization code: " ++ str_at result "code") ;;
              print ("  Request ID: " ++ str_at result "request_id") ;;
              print ("  Timestamp: " ++ str_at result "timestamp") ;;
              ret false
            else
              print (nl ++ "❌ Failed: " ++ str_at result "error") ;;
              ret false
        | _ => ret false
        end
  else if String.eqb choice "4" then
    print (nl ++ "👋 Goodbye!") ;; ret true
  else
    print "❌ Invalid option!" ;; ret false.

(** The loop of [main], [while True], for at most [fuel] turns: [None] when
    the turns are used up before the loop is left. *)
Fixpoint menu_loop (fuel : nat) (headers : list (string * string))
  : C (option unit) :=
  match fuel with
  | O => ret None
  | S fuel' =>
      leave <- menu_turn headers ;;
      if (leave : bool) then ret (Some tt) else menu_loop fuel' headers
  end.

End Calls.

(** A request that posts to the route [path]. *)
Definition posts_to (base path : string) (r : Request) : bool :=
  match method r with
  | POST => String.eqb (url r) (base ++ path)
  | GET => false
  end.

End Client.

(** The request [Client.login] posts. *)
Definition login_request (base key email : string) (code : option string)
  : Client.Request :=
  {| Client.method := Client.POST;
     Client.url := base ++ "/login";
     Client.headers := [("X-API-Key", key);
                        ("Content-Type", "application/json")];
     Client.json :=
       Some (("email", Client.JStr email)
               :: match code with
                  | Some c => [("verification_code", Client.JStr c)]
                  | None => []
                  end);
     Client.timeout := Some 30 |}.

(** The request [Client.get_status] sends. *)
Definition status_request (base : string) (headers : list (string * string))
  : Client.Request :=
  {| Client.method := Client.GET;
     Client.url := base ++ "/status";
     Client.headers := headers;
     Client.json := None;
     Client.timeout := None |}.

(** Sample replies of the API and a sample terminal. *)
Module ClientSample.

Definition verification_required : Client.Dict :=
  [("status", Client.JStr "verification_required");
   ("message", Client.JStr "Check your email for verification code");
   ("session_active", Client.JBool false)].

Definition logged_in : Client.Dict :=
  [("status", Client.JStr "success");
   ("message", Client.JStr "Successfully logged in to Claude");
   ("session_active", Client.JBool true)].

Definition invalid_key : Client.Dict :=
  [("detail", Client.JStr "Invalid API key")].

Definition no_session : Client.Dict :=
  [("browser_active", Client.JBool true); ("pages_open", Client.JNum 0);
   ("current_url", Client.JNull); ("logged_in", Client.JBool false)].

(** An API that walks through the two steps of the login: the first request
    is answered by [verification_required], the later ones by [success]. *)
Definition two_steps (history : list Client.Request) (r : Client.Request)
  : Answer Client.Dict :=
  match history with
  | [] => Returns verification_required
  | _ :: _ => Returns logged_in
  end.

(** An API that rejects the key of every request. *)
Definition rejecting (history : list Client.Request) (r : Client.Request)
  : Answer Client.Dict :=
  Returns invalid_key.

(** An API without a session. *)
Definition idle (history : list Client.Request) (r : Client.Request)
  : Answer Client.Dict :=
  Returns no_session.

Definition typed (lines : list string) : Client.Terminal :=
  {| Client.stdin := lines; Client.stdout := []; Client.sent := [] |}.

End ClientSample.

(** A computation of the client takes the lines it reads from the front of
    the input, and returns only values satisfying [Q]. *)
Definition reading {A} (Q : A -> Prop) (m : Client.C A) : Prop :=
  forall t o t',
    m t = (o, t') ->
    (exists used, Client.stdin t = (used ++ Client.stdin t')%list) /\
    (forall a, o = Return a -> Q a).

(** * Properties

    ** Python strings *)

Module PyStrFacts.
Import PyStr.

Lemma after_first_contains sep s :
  contains sep s = true <-> exists rest, after_first sep s = Some rest.
Proof.
  induction s as [|c s IH]; simpl.
  - destruct (startswith sep EmptyString); split; intros H;
      try reflexivity; try discriminate; eauto.
    destruct H as [r H]; discriminate.
  - destruct (startswith sep (String c s)); [split; eauto | exact IH].
Qed.

Lemma after_first_none sep s :
  after_first sep s = None -> before_first sep s = s.
Proof.
  induction s as [|c s IH]; simpl.
  - destruct (startswith sep EmptyString); [discriminate | reflexivity].
  - destruct (startswith sep (String c s)); [discriminate |].
    intros H. now rewrite IH.
Qed.

Lemma drop_length n s : String.length (drop n s) = String.length s - n.
Proof.
  revert s; induction n as [|n IH]; intros [|c s]; simpl; auto.
Qed.

Lemma startswith_length p s :
  startswith p s = true -> String.length p <= String.length s.
Proof.
  revert s; induction p as [|a p IH]; intros [|b s]; simpl; try lia;
    try discriminate.
  intros H; apply andb_true_iff in H as [_ H]. apply IH in H. lia.
Qed.

Lemma after_first_length sep s rest :
  after_first sep s = Some rest ->
  String.length rest + String.length sep <= String.length s.
Proof.
  induction s as [|c s IH]; cbn [after_first].
  - destruct (startswith sep EmptyString) eqn:P; [|discriminate].
    intros [= <-]. apply startswith_length in P. rewrite drop_length. lia.
  - destruct (startswith sep (String c s)) eqn:P.
    + intros [= <-]. apply startswith_length in P. rewrite drop_length. lia.
    + intros H. apply IH in H. cbn [String.length]. lia.
Qed.

Lemma split_fuel_irrelevant a sep n m s :
  String.length s < n -> String.length s < m ->
  split_fuel n (String a sep) s = split_fuel m (String a sep) s.
Proof.
  revert m s; induction n as [|n IH]; intros [|m] s Hn Hm; try lia.
  cbn [split_fuel].
  destruct (after_first (String a sep) s) as [rest|] eqn:A; [|reflexivity].
  f_equal. apply after_first_length in A. cbn [String.length] in A.
  apply IH; lia.
Qed.

(** More fuel than the length of the text changes nothing. *)
Lemma split_fuel_enough a sep n s :
  String.length s < n ->
  split_fuel n (String a sep) s = split (String a sep) s.
Proof.
  intros H. unfold split. apply split_fuel_irrelevant; lia.
Qed.

Lemma split_head sep s :
  nth_error (split sep s) 0 = Some (before_first sep s).
Proof.
  unfold split. cbn [split_fuel].
  destruct (after_first sep s) eqn:A; cbn [nth_error].
  - reflexivity.
  - now rewrite after_first_none.
Qed.

Lemma split_second a sep s rest :
  after_first (String a sep) s = Some rest ->
  nth_error (split (String a sep) s) 1
  = Some (before_first (String a sep) rest).
Proof.
  intros A. unfold split. cbn [split_fuel]. rewrite A. cbn [nth_error].
  pose proof (after_first_length _ _ _ A) as L. cbn [String.length] in L.
  rewrite (split_fuel_enough a sep (String.length s) rest) by lia.
  apply split_head.
Qed.

Lemma before_single_cons c a s :
  before_first (single c) (String a s)
  = if Ascii.eqb c a then EmptyString
    else String a (before_first (single c) s).
Proof.
  unfold single. cbn [before_first startswith].
  destruct (Ascii.eqb c a); reflexivity.
Qed.

Lemma startswith_before_single c p s :
  absent c p = true -> startswith p s = true ->
  startswith p (before_first (single c) s) = true.
Proof.
  revert s; induction p as [|a p IH]; intros s Hc Hp.
  - destruct (before_first (single c) s); reflexivity.
  - destruct s as [|b s]; [discriminate|].
    cbn [startswith absent] in *.
    apply andb_true_iff in Hc as [Hac Hc], Hp as [Hab Hp].
    apply Ascii.eqb_eq in Hab; subst b.
    rewrite before_single_cons.
    apply negb_true_iff in Hac. rewrite Ascii.eqb_sym in Hac. rewrite Hac.
    cbn [startswith]. rewrite Ascii.eqb_refl. cbn. now apply IH.
Qed.

(** Cutting at the first [p] does not move the first [c] when [p] occurs
    neither before that [c] nor across it. *)
Lemma before_single_before c p s :
  absent c p = true ->
  contains p (before_first (single c) s) = false ->
  before_first (single c) (before_first p s) = before_first (single c) s.
Proof.
  intros Hc. induction s as [|a s IH]; intros H.
  - cbn. destruct (startswith p EmptyString); reflexivity.
  - change (before_first p (String a s))
      with (if startswith p (String a s) then EmptyString
            else String a (before_first p s)).
    destruct (startswith p (String a s)) eqn:P.
    + apply (startswith_before_single c) in P; [|exact Hc].
      destruct (before_first (single c) (String a s)); cbn in H;
        rewrite P in H; discriminate.
    + rewrite !before_single_cons. rewrite before_single_cons in H.
      destruct (Ascii.eqb c a); [reflexivity|].
      f_equal. apply IH.
      cbn [contains] in H.
      destruct (startswith p (String a (before_first (single c) s)));
        [discriminate | exact H].
Qed.

End PyStrFacts.

Example split_code_1 :
  PyStr.split "code=" "https://app/cb?code=abc&state=x" =
  ["https://app/cb?"; "abc&state=x"].
Proof. reflexivity. Qed.

Example split_code_2 :
  PyStr.split "code=" "a?code=Xcode=Y" = ["a?"; "X"; "Y"].
Proof. reflexivity. Qed.

Example strip_1 : PyStr.strip "  ab c  " = "ab c".
Proof. reflexivity. Qed.

Example url_decode_1 : Spec.url_decode "a%20b%2Fc" = "a b/c".
Proof. reflexivity. Qed.

Example search_pattern_3 :
  Re.search (nth 2 code_patterns [])
    "<b>abcdefghij0123456789abcdefghij0123456789</b>"
  = Some "abcdefghij0123456789abcdefghij0123456789".
Proof. reflexivity. Qed.

Example search_pattern_1 :
  Re.search (nth 0 code_patterns [])
    ("{" ++ quoted "code" ++ ": " ++ quoted "abcdefghij0123456789_-X" ++ "}")
  = Some "abcdefghij0123456789_-X".
Proof. reflexivity. Qed.

(** ** Sample runs *)

Example run_no_button :
  authorize_oauth (Sample.still "https://claude.ai/oauth/authorize")
    Sample.authorize_request startup_world
  = (Return {| success := false; code := None;
               error := Some "Could not find authorize button on page";
               request_id := "6f1c2a7e-58f0-4a53-9d0b-0c7a3a1d2b44";
               timestamp := 0 |},
     {| browser_context := Some {| pages := []; opened := 1 |};
        trace := [NewPage; Goto 0 "https://claude.ai/oauth/authorize";
                  WaitForLoadState 0 "networkidle"]
                 ++ map (FirstIsVisible 0) authorize_selectors
                 ++ [TextContent 0 "body"; Close 0] |}).
Proof. reflexivity. Qed.

Example run_code_in_url :
  authorize_oauth (Sample.app "https://app.example/cb?code=abc123&state=x")
    Sample.authorize_request (Sample.one_page 7 [])
  = (Return {| success := true; code := Some "abc123"; error := None;
               request_id := "6f1c2a7e-58f0-4a53-9d0b-0c7a3a1d2b44";
               timestamp := 0 |},
     {| browser_context := Some {| pages := [7]; opened := 8 |};
        trace := [Goto 7 "https://claude.ai/oauth/authorize";
                  WaitForLoadState 7 "networkidle"]
                 ++ map (FirstIsVisible 7) (firstn 5 authorize_selectors)
                 ++ [FirstClick 7 "button.btn-primary";
                     WaitForLoadState 7 "networkidle";
                     Sleep 2000 2000] |}).
Proof. reflexivity. Qed.

Example run_login_with_code :
  login (Sample.still "https://claude.ai/new")
    {| email := "user@example.com"; verification_code := Some "42" |}
    startup_world
  = (Return {| status := "success";
               message := "Successfully logged in to Claude";
               session_active := true |},
     {| browser_context := Some {| pages := [0]; opened := 1 |};
        trace := [NewPage; Goto 0 "https://claude.ai/login";
                  WaitForLoadState 0 "networkidle";
                  Fill 0 email_input "user@example.com";
                  Click 0 continue_button;
                  WaitForSelector 0 numeric_input (Some 10000%N);
                  LocatorAll 0 numeric_input;
                  NthFill 0 numeric_input 0 "4";
                  NthFill 0 numeric_input 1 "2";
                  WaitForLoadState 0 "networkidle";
                  Sleep 3000 3000] |}).
Proof. reflexivity. Qed.

Example run_login_timeout :
  login (Sample.login_site "https://claude.ai/login" numeric_input)
    {| email := "user@example.com"; verification_code := Some "42" |}
    startup_world
  = (Raise (HTTPException 500 "Timeout 10000ms exceeded."),
     {| browser_context := Some {| pages := []; opened := 1 |};
        trace := [NewPage; Goto 0 "https://claude.ai/login";
                  WaitForLoadState 0 "networkidle";
                  Fill 0 email_input "user@example.com";
                  Click 0 continue_button;
                  WaitForSelector 0 numeric_input (Some 10000%N);
                  Close 0] |}).
Proof. reflexivity. Qed.

Example run_visual_challenge :
  fst (Visual.login (Sample.still "https://claude.ai/challenge")
         {| email := "u@x.io"; verification_code := None |} startup_world)
  = Return (Some {| status := "challenge_detected";
                    message := "Cloudflare challenge detected. Please use /login/manual for manual login.";
                    session_active := false |}).
Proof. reflexivity. Qed.

(** ** The key check *)

Lemma truthy_nonempty s : s <> EmptyString -> PyStr.truthy s = true.
Proof. destruct s; [congruence | reflexivity]. Qed.

Lemma verify_api_key_rejects K header w :
  header <> Some K ->
  verify_api_key K (api_key_header header) w
  = (Raise (HTTPException 401 "Invalid API key"), w).
Proof.
  intros H. destruct header as [s|]; [|reflexivity].
  unfold api_key_header. destruct (PyStr.truthy s) eqn:T; [|reflexivity].
  unfold verify_api_key. rewrite T. cbn [negb orb].
  destruct (String.eqb s K) eqn:Q; [|reflexivity].
  apply String.eqb_eq in Q. congruence.
Qed.

Lemma verify_api_key_accepts K w :
  K <> EmptyString ->
  verify_api_key K (api_key_header (Some K)) w = (Return K, w).
Proof.
  intros H. unfold api_key_header, verify_api_key.
  rewrite (truthy_nonempty K H). cbn iota.
  rewrite (truthy_nonempty K H), String.eqb_refl. reflexivity.
Qed.

Lemma post_login_authenticated E K request w :
  K <> EmptyString -> post_login E K (Some K) request w = login E request w.
Proof.
  intros H. unfold post_login, bind. now rewrite verify_api_key_accepts.
Qed.

Lemma post_oauth_authorize_authenticated E K request w :
  K <> EmptyString ->
  post_oauth_authorize E K (Some K) request w = authorize_oauth E request w.
Proof.
  intros H. unfold post_oauth_authorize, bind.
  now rewrite verify_api_key_accepts.
Qed.

Lemma get_status_authenticated E K w :
  K <> EmptyString -> get_status_route E K (Some K) w = get_status E w.
Proof.
  intros H. unfold get_status_route, bind.
  now rewrite verify_api_key_accepts.
Qed.

(** C2, as amended.  On each protected route a request whose [X-API-Key]
    header is absent or differs from the configured key is answered with
    HTTP 401 and the world is left as it was: no call reached the browser.
    A request carrying the configured key passes the check, and the route
    then is its handler, provided the configured key is not empty. *)
Theorem C2_api_key_gate E K header lreq oreq w :
  (header <> Some K ->
   post_login E K header lreq w
   = (Raise (HTTPException 401 "Invalid API key"), w) /\
   post_oauth_authorize E K header oreq w
   = (Raise (HTTPException 401 "Invalid API key"), w) /\
   get_status_route E K header w
   = (Raise (HTTPException 401 "Invalid API key"), w)) /\
  (K <> EmptyString -> header = Some K ->
   Spec.passes_auth K header w /\
   post_login E K header lreq w = login E lreq w /\
   post_oauth_authorize E K header oreq w = authorize_oauth E oreq w /\
   get_status_route E K header w = get_status E w).
Proof.
  split.
  - intros H. unfold post_login, post_oauth_authorize, get_status_route, bind.
    now rewrite (verify_api_key_rejects K header w H).
  - intros HK ->. repeat split.
    + exists K. now apply verify_api_key_accepts.
    + now apply post_login_authenticated.
    + now apply post_oauth_authorize_authenticated.
    + now apply get_status_authenticated.
Qed.

Lemma C2_api_key_gate_witness :
  post_login (Sample.still "about:blank") "s3cret" None
    {| email := "user@example.com"; verification_code := None |}
    startup_world
  = (Raise (HTTPException 401 "Invalid API key"), startup_world) /\
  Spec.passes_auth "s3cret" (Some "s3cret") startup_world.
Proof.
  pose proof (C2_api_key_gate (Sample.still "about:blank") "s3cret" None
                {| email := "user@example.com"; verification_code := None |}
                {| oauth_url := "https://claude.ai/oauth/authorize" |}
                startup_world) as [R _].
  pose proof (C2_api_key_gate (Sample.still "about:blank") "s3cret"
                (Some "s3cret")
                {| email := "user@example.com"; verification_code := None |}
                {| oauth_url := "https://claude.ai/oauth/authorize" |}
                startup_world) as [_ A].
  split.
  - apply R. discriminate.
  - apply A; [discriminate | reflexivity].
Defined.

(** C2 as stated fails for an empty configured key: the request that
    carries exactly that key is rejected. *)
Lemma C2_empty_key_rejected :
  ~ Spec.passes_auth EmptyString (Some EmptyString) startup_world.
Proof. intros [k H]. discriminate H. Qed.

(** ** The status report *)

(** C9.  An authenticated [GET /status] answers without touching the
    world.  With no open page it reports [pages_open] 0, [logged_in] false
    and no current URL; with an open page, [logged_in] is true exactly when
    the URL of the first page contains [claude.ai/chat] or
    [claude.ai/new]. *)
Theorem C9_status_report E K w :
  K <> EmptyString ->
  exists r,
    get_status_route E K (Some K) w = (Return r, w) /\
    (open_pages w = [] ->
     pages_open r = 0 /\ logged_in r = false /\ current_url r = None) /\
    (forall p ps,
        open_pages w = p :: ps ->
        pages_open r = S (List.length ps) /\
        current_url r = Some (env_url E (trace w) p) /\
        (logged_in r = true <->
         PyStr.contains "claude.ai/chat" (env_url E (trace w) p) = true \/
         PyStr.contains "claude.ai/new" (env_url E (trace w) p) = true)).
Proof.
  intros HK. rewrite get_status_authenticated by exact HK.
  unfold get_status, try_except, open_pages.
  eexists; split; [reflexivity|].
  cbn [pages_open logged_in current_url].
  split.
  - intros ->. now cbn.
  - intros p ps ->. cbn [hd_error List.length]. repeat split.
    + unfold authenticated_url. apply orb_true_iff.
    + unfold authenticated_url. apply orb_true_iff.
Qed.

Lemma C9_status_report_witness :
  exists r,
    get_status_route (Sample.still "https://claude.ai/new") "s3cret"
      (Some "s3cret") (Sample.one_page 0 [NewPage])
    = (Return r, Sample.one_page 0 [NewPage]) /\
    pages_open r = 1 /\ logged_in r = true.
Proof.
  destruct (C9_status_report (Sample.still "https://claude.ai/new") "s3cret"
              (Sample.one_page 0 [NewPage])) as [r [H [_ P]]];
    [discriminate|].
  exists r. split; [exact H|].
  destruct (P 0 [] eq_refl) as [N [_ L]].
  split; [exact N|]. apply L. right. reflexivity.
Defined.

(** ** What a computation adds to the trace and does to the context *)

Lemma log_context a w : browser_context (log a w) = browser_context w.
Proof. reflexivity. Qed.

Lemma log_trace a w : trace (log a w) = (trace w ++ [a])%list.
Proof. reflexivity. Qed.

Section Respect.

Variable R : option Context -> option Context -> Prop.
Variable P : Action -> bool.
Hypothesis R_refl : forall c, R c c.
Hypothesis R_trans : forall a b c, R a b -> R b c -> R a c.

Lemma respects_still {A} (m : M A) :
  (forall w, exists o, m w = (o, w)) -> respects R P m.
Proof.
  intros H w o w' Hm. destruct (H w) as [o' Ho]. rewrite Ho in Hm.
  injection Hm as <- <-. split; [apply R_refl|].
  exists []. now rewrite app_nil_r.
Qed.

Lemma respects_logged {A} (m : M A) a :
  P a = true ->
  (forall w, exists o, m w = (o, log a w)) -> respects R P m.
Proof.
  intros Pa H w o w' Hm. destruct (H w) as [o' Ho]. rewrite Ho in Hm.
  injection Hm as <- <-. split; [apply R_refl|].
  exists [a]. split; [reflexivity|]. cbn. now rewrite Pa.
Qed.

Lemma respects_ret {A} (a : A) : respects R P (ret a).
Proof. apply respects_still. intros w. now exists (Return a). Qed.

Lemma respects_raise {A} e : respects R P (@raise A e).
Proof. apply respects_still. intros w. now exists (Raise e). Qed.

Lemma respects_then {A B} (m : M A) (k : Outcome A -> M B) (f : M B) :
  (forall w, f w = let (o, w1) := m w in k o w1) ->
  respects R P m -> (forall o, respects R P (k o)) -> respects R P f.
Proof.
  intros Hf Hm Hk w o w' H. rewrite Hf in H.
  destruct (m w) as [o1 w1] eqn:M1.
  destruct (Hm _ _ _ M1) as [R1 [l1 [T1 F1]]].
  destruct (Hk _ _ _ _ H) as [R2 [l2 [T2 F2]]].
  split; [eapply R_trans; eassumption|].
  exists (l1 ++ l2)%list. split.
  - now rewrite T2, T1, app_assoc.
  - rewrite forallb_app. now rewrite F1, F2.
Qed.

Lemma respects_bind {A B} (m : M A) (k : A -> M B) :
  respects R P m -> (forall a, respects R P (k a)) ->
  respects R P (bind m k).
Proof.
  intros Hm Hk.
  apply (respects_then m (fun o => match o with
                                   | Return a => k a
                                   | Raise e => raise e
                                   end)); [|exact Hm|].
  - intros w. unfold bind. now destruct (m w) as [[a|e] w1].
  - intros [a|e]; [apply Hk | apply respects_raise].
Qed.

Lemma respects_try_except {A} (m : M A) (h : Exn -> M A) :
  respects R P m -> (forall e, respects R P (h e)) ->
  respects R P (try_except m h).
Proof.
  intros Hm Hh.
  apply (respects_then m (fun o => match o with
                                   | Return a => ret a
                                   | Raise e => h e
                                   end)); [|exact Hm|].
  - intros w. unfold try_except. now destruct (m w) as [[a|e] w1].
  - intros [a|e]; [apply respects_ret | apply Hh].
Qed.

Lemma respects_attempt {A} (m : M A) :
  respects R P m -> respects R P (attempt m).
Proof.
  intros Hm.
  apply (respects_then m (fun o => match o with
                                   | Return a => ret (inr a)
                                   | Raise e => ret (inl e)
                                   end)); [|exact Hm|].
  - intros w. unfold attempt. now destruct (m w) as [[a|e] w1].
  - intros [a|e]; apply respects_ret.
Qed.

Lemma respects_exec E a : P a = true -> respects R P (exec E a).
Proof.
  intros Pa. apply (respects_logged _ a Pa). intros w. unfold exec.
  destruct (env_exec E (trace w) a); eauto.
Qed.

Lemma respects_ask E {A} (f : Env -> list Action -> Action -> Answer A) a :
  P a = true -> respects R P (ask E f a).
Proof.
  intros Pa. apply (respects_logged _ a Pa). intros w. unfold ask.
  destruct (f E (trace w) a); eauto.
Qed.

Lemma respects_sleep lo hi :
  P (Sleep lo hi) = true -> respects R P (sleep lo hi).
Proof.
  intros Pa. apply (respects_logged _ _ Pa). intros w. unfold sleep. eauto.
Qed.

Lemma respects_page_url E p : respects R P (page_url E p).
Proof. apply respects_still. intros w. unfold page_url. eauto. Qed.

Lemma respects_getitem {A} (l : list A) i : respects R P (getitem l i).
Proof.
  unfold getitem. destruct (nth_error l i);
    [apply respects_ret | apply respects_raise].
Qed.

Lemma respects_response E ok c err :
  respects R P (OAuthResponse_new E ok c err).
Proof.
  apply respects_still. intros w. unfold OAuthResponse_new. eauto.
Qed.

Lemma respects_context_pages : respects R P context_pages.
Proof.
  apply respects_still. intros w. unfold context_pages.
  destruct (browser_context w); eauto.
Qed.

Lemma respects_close p :
  (forall c c', R c c') -> P (Close p) = true -> respects R P (close p).
Proof.
  intros Rt Pa w o w' H. unfold close in H. injection H as <- <-.
  split; [apply Rt|]. exists [Close p]. split.
  - rewrite log_trace. now destruct (browser_context w).
  - cbn. now rewrite Pa.
Qed.


End Respect.

(** A tactic that follows the structure of a computation. *)
Ltac respect :=
  repeat first
    [ apply respects_ret | apply respects_raise
    | apply respects_page_url | apply respects_getitem
    | apply respects_response | apply respects_context_pages
    | apply respects_bind | apply respects_try_except
    | apply respects_attempt
    | apply respects_exec | apply respects_ask | apply respects_sleep
    | assumption | reflexivity
    | solve [cbn; apply Nat.eqb_refl]
    | solve [intros; first [congruence | exact I]]
    | progress intros
    | match goal with
      | |- respects _ _ (if ?b then _ else _) => destruct b
      | |- respects _ _ (match ?x with _ => _ end) => destruct x
      end ].

Section RespectLoops.

Variable R : option Context -> option Context -> Prop.
Variable P : Action -> bool.
Hypothesis R_refl : forall c, R c c.
Hypothesis R_trans : forall a b c, R a b -> R b c -> R a c.
Variable E : Env.
Variable page : Page.

Lemma respects_click_first_visible selectors :
  (forall s, P (FirstIsVisible page s) = true) ->
  (forall s, P (FirstClick page s) = true) ->
  respects R P (click_first_visible E page selectors).
Proof.
  intros Pv Pc. induction selectors as [|s rest IH]; cbn [click_first_visible].
  - now apply respects_ret.
  - respect; auto.
Qed.

Lemma respects_find_code_text selectors :
  (forall s, P (FirstIsVisible page s) = true) ->
  (forall s, P (FirstTextContent page s) = true) ->
  respects R P (find_code_text E page selectors).
Proof.
  intros Pv Pc. induction selectors as [|s rest IH]; cbn [find_code_text].
  - now apply respects_ret.
  - respect; auto.
Qed.

End RespectLoops.

Ltac respect_all :=
  repeat first
    [ apply respects_click_first_visible
    | apply respects_find_code_text
    | progress respect ].

(** ** The page of [authorize_oauth] *)

Section ExistingPage.

Variable E : Env.
Variable request : OAuthRequest.
Variables (p : Page) (ps : list Page).

Lemma respects_steps_existing :
  respects eq (on_page p)
    (try_except (authorize_steps E request p (p :: ps))
       (authorize_except E (Some p) (p :: ps))).
Proof.
  unfold authorize_steps, navigate, after_navigation, settle, extract_code,
    extract_from_page, code_of_url, authorize_except, close_if_new.
  respect_all.
Qed.

End ExistingPage.

(** C10.  When the context holds a page at the call, [authorize_oauth]
    works on the first one and leaves the context as it found it, whatever
    the outcome: every call it adds to the trace is a call on that page, and
    none opens or closes a page. *)
Theorem C10_existing_page_kept E request w c p ps :
  browser_context w = Some c ->
  pages c = p :: ps ->
  forall o w',
    authorize_oauth E request w = (o, w') ->
    browser_context w' = Some c /\
    open_pages w' = p :: ps /\
    exists l, trace w' = (trace w ++ l)%list /\ forallb (on_page p) l = true.
Proof.
  intros Hc Hp o w' H.
  unfold authorize_oauth, bind, attempt, context_pages in H.
  rewrite Hc, Hp in H. cbn [open_page ret] in H.
  destruct (respects_steps_existing E request p ps _ _ _ H) as [C T].
  unfold open_pages. rewrite <- C, Hc. auto.
Qed.

Lemma C10_existing_page_kept_witness :
  let E := Sample.consent "https://claude.ai/oauth/authorize"
             "https://app.example/cb?code=abc123&state=xyz"
             ["button.btn-primary"] [] None EmptyString in
  let w := Sample.one_page 0 [NewPage] in
  let r := authorize_oauth E
             {| oauth_url := "https://claude.ai/oauth/authorize" |} w in
  browser_context (snd r) = browser_context w /\
  open_pages (snd r) = [0].
Proof.
  cbv zeta.
  destruct (C10_existing_page_kept
              (Sample.consent "https://claude.ai/oauth/authorize"
                 "https://app.example/cb?code=abc123&state=xyz"
                 ["button.btn-primary"] [] None EmptyString)
              {| oauth_url := "https://claude.ai/oauth/authorize" |}
              (Sample.one_page 0 [NewPage])
              {| pages := [0]; opened := 1 |} 0 []
              eq_refl eq_refl _ _ (surjective_pairing _)) as [C [O _]].
  split; [exact C | exact O].
Defined.

(** ** The exceptions a computation can raise *)

Section Raises.

Variable Q : Exn -> Prop.

Lemma raises_only_ret {A} (a : A) : raises_only Q (ret a).
Proof. intros w e w' H. discriminate H. Qed.

Lemma raises_only_raise {A} e : Q e -> raises_only Q (@raise A e).
Proof. intros He w e' w' H. injection H as <- _. exact He. Qed.

Lemma raises_only_bind {A B} (m : M A) (k : A -> M B) :
  raises_only Q m -> (forall a, raises_only Q (k a)) ->
  raises_only Q (bind m k).
Proof.
  intros Hm Hk w e w' H. unfold bind in H.
  destruct (m w) as [[a|e1] w1] eqn:M1.
  - exact (Hk _ _ _ _ H).
  - injection H as <- _. exact (Hm _ _ _ M1).
Qed.

Lemma raises_only_try_except {A} (m : M A) (h : Exn -> M A) :
  (forall e, raises_only Q (h e)) -> raises_only Q (try_except m h).
Proof.
  intros Hh w e w' H. unfold try_except in H.
  destruct (m w) as [[a|e1] w1]; [discriminate H | exact (Hh _ _ _ _ H)].
Qed.

Lemma raises_only_attempt {A} (m : M A) : raises_only Q (attempt m).
Proof.
  intros w e w' H. unfold attempt in H.
  destruct (m w) as [[a|e1] w1]; discriminate H.
Qed.

Hypothesis Q_plain : forall msg, Q (Exception msg).

Lemma raises_only_exec E a : raises_only Q (exec E a).
Proof.
  intros w e w' H. unfold exec in H.
  destruct (env_exec E (trace w) a); [|discriminate H].
  injection H as <- _. apply Q_plain.
Qed.

Lemma raises_only_ask E {A} (f : Env -> list Action -> Action -> Answer A)
  a : raises_only Q (ask E f a).
Proof.
  intros w e w' H. unfold ask in H.
  destruct (f E (trace w) a); [discriminate H|].
  injection H as <- _. apply Q_plain.
Qed.

Lemma raises_only_sleep lo hi : raises_only Q (sleep lo hi).
Proof. intros w e w' H. discriminate H. Qed.

Lemma raises_only_close p : raises_only Q (close p).
Proof. intros w e w' H. discriminate H. Qed.

Lemma raises_only_page_url E p : raises_only Q (page_url E p).
Proof. intros w e w' H. discriminate H. Qed.

Lemma raises_only_response E ok c err :
  raises_only Q (OAuthResponse_new E ok c err).
Proof. intros w e w' H. discriminate H. Qed.

Lemma raises_only_getitem {A} (l : list A) i : raises_only Q (getitem l i).
Proof.
  unfold getitem. destruct (nth_error l i);
    [apply raises_only_ret | apply raises_only_raise, Q_plain].
Qed.

Lemma raises_only_context_pages : raises_only Q context_pages.
Proof.
  intros w e w' H. unfold context_pages in H.
  destruct (browser_context w); [discriminate H|].
  injection H as <- _. apply Q_plain.
Qed.

Lemma raises_only_new_page E : raises_only Q (new_page E).
Proof.
  intros w e w' H. unfold new_page in H.
  destruct (browser_context w).
  - destruct (env_exec E (trace w) NewPage); [|discriminate H].
    injection H as <- _. apply Q_plain.
  - injection H as <- _. apply Q_plain.
Qed.

End Raises.

Ltac raising :=
  repeat first
    [ apply raises_only_ret | apply raises_only_try_except
    | apply raises_only_attempt | apply raises_only_bind
    | apply raises_only_exec | apply raises_only_ask
    | apply raises_only_sleep | apply raises_only_close
    | apply raises_only_page_url | apply raises_only_response
    | apply raises_only_getitem | apply raises_only_context_pages
    | apply raises_only_new_page
    | solve [apply raises_only_raise; cbn; auto]
    | solve [intros; cbn; auto]
    | progress intros
    | match goal with
      | |- raises_only _ (if ?b then _ else _) => destruct b
      | |- raises_only _ (match ?x with _ => _ end) => destruct x
      end ].

(** The two loops catch whatever their bodies raise. *)
Lemma click_first_visible_total E page selectors w :
  exists clicked w', click_first_visible E page selectors w
                     = (Return clicked, w').
Proof.
  revert w. induction selectors as [|s rest IH]; intros w;
    cbn [click_first_visible]; [unfold ret; eauto|].
  unfold bind, try_except, ask, exec, ret.
  destruct (env_bool E (trace w) (FirstIsVisible page s)) as [[|]|msg];
    try apply IH.
  destruct (env_exec E _ (FirstClick page s)); [apply IH | eauto].
Qed.

Lemma find_code_text_total E page selectors w :
  exists found w', find_code_text E page selectors w = (Return found, w').
Proof.
  revert w. induction selectors as [|s rest IH]; intros w;
    cbn [find_code_text]; [unfold ret; eauto|].
  unfold bind, try_except, ask, ret.
  destruct (env_bool E (trace w) (FirstIsVisible page s)) as [[|]|msg];
    try apply IH.
  destruct (env_text E _ (FirstTextContent page s)) as [[t|]|msg];
    try apply IH.
  destruct (PyStr.truthy t && (10 <? String.length t)%nat);
    [eauto | apply IH].
Qed.

Lemma raises_only_click_first_visible Q E page selectors :
  raises_only Q (click_first_visible E page selectors).
Proof.
  intros w e w' H.
  destruct (click_first_visible_total E page selectors w) as [b [w1 T]].
  rewrite T in H. discriminate H.
Qed.

Lemma raises_only_find_code_text Q E page selectors :
  raises_only Q (find_code_text E page selectors).
Proof.
  intros w e w' H.
  destruct (find_code_text_total E page selectors w) as [b [w1 T]].
  rewrite T in H. discriminate H.
Qed.

Ltac raising_all :=
  repeat first
    [ apply raises_only_click_first_visible
    | apply raises_only_find_code_text
    | progress raising ].

Lemma raises_only_authorize_steps E request page pages :
  raises_only plain_or_rejection (authorize_steps E request page pages).
Proof.
  unfold authorize_steps, navigate, after_navigation, settle, extract_code,
    extract_from_page, code_of_url, close_if_new, plain_or_rejection.
  raising_all.
Qed.

Lemma authorize_except_plain E page pages msg w :
  exists r w',
    authorize_except E page pages (Exception msg) w = (Return r, w') /\
    success r = false /\ error r = Some msg /\ code r = None.
Proof.
  unfold authorize_except, bind, OAuthResponse_new, close, ret.
  destruct page as [p|]; [destruct pages as [|q qs]|];
    cbn; eexists; eexists; split; try reflexivity; cbn; auto.
Qed.

Lemma raises_only_authorize_except E page pages e :
  plain_or_rejection e ->
  raises_only (fun e' => e' = not_logged_in)
    (authorize_except E page pages e).
Proof.
  intros [He | ->] w e' w' H.
  - destruct e as [msg|c d]; [|destruct He].
    destruct (authorize_except_plain E page pages msg w) as [r [w1 [X _]]].
    rewrite X in H. discriminate H.
  - cbn in H. now injection H as <- _.
Qed.

Lemma plain_exception msg : plain_or_rejection (Exception msg).
Proof. left. exact I. Qed.

Lemma raises_only_authorize_oauth E request :
  raises_only (fun e => e = not_logged_in) (authorize_oauth E request).
Proof.
  intros w e w' H. unfold authorize_oauth, bind, attempt in H.
  destruct (context_pages w) as [[pages|e1] w1] eqn:C.
  - destruct (open_page E pages w1) as [[page|e2] w2] eqn:O.
    + unfold try_except in H.
      destruct (authorize_steps E request page pages w2) as [[r|e3] w3] eqn:S;
        [discriminate H|].
      apply raises_only_authorize_steps in S.
      exact (raises_only_authorize_except _ _ _ _ S _ _ _ H).
    + assert (P : plain_or_rejection e2).
      { revert O. unfold open_page. destruct pages; [|discriminate].
        apply (raises_only_new_page plain_or_rejection plain_exception). }
      exact (raises_only_authorize_except _ _ _ _ P _ _ _ H).
  - assert (P : plain_or_rejection e1).
    { revert C.
      apply (raises_only_context_pages plain_or_rejection plain_exception). }
    exact (raises_only_authorize_except _ _ _ _ P _ _ _ H).
Qed.

(** ** Unclassified exceptions *)

(** C5.  An exception that leaves the [try] block of [login] becomes an
    HTTP 500 whose detail is the string of the exception.  A plain exception
    that leaves the [try] block of [authorize_oauth] becomes a response with
    [success] false and the string of the exception as [error]; and
    [authorize_oauth] never ends in a 5xx: it answers, or rejects with
    401. *)
Theorem C5_unclassified_exceptions E lreq oreq w :
  (forall e w',
      login_block E lreq w = (Raise e, w') ->
      exists w'',
        login E lreq w = (Raise (HTTPException 500 (exn_str e)), w'')) /\
  (forall msg w',
      authorize_block E oreq w = (Raise (Exception msg), w') ->
      exists r w'',
        authorize_oauth E oreq w = (Return r, w'') /\
        success r = false /\ error r = Some msg /\ code r = None) /\
  (http_status (fst (authorize_oauth E oreq w)) = 200 \/
   http_status (fst (authorize_oauth E oreq w)) = 401).
Proof.
  split; [|split].
  - intros e w' H. unfold login_block, bind in H.
    unfold login, bind, attempt, try_except.
    destruct (new_page E w) as [[page|e1] w1].
    + destruct (login_steps E lreq page w1) as [[r|e2] w2];
        [discriminate H|].
      injection H as <- _. unfold close, raise. eauto.
    + injection H as <- _. unfold raise. eauto.
  - intros msg w' H. unfold authorize_block, bind in H.
    unfold authorize_oauth, bind, attempt, try_except.
    destruct (context_pages w) as [[pages|e1] w1].
    + destruct (open_page E pages w1) as [[page|e2] w2].
      * destruct (authorize_steps E oreq page pages w2) as [[r|e3] w3];
          [discriminate H|].
        injection H as -> _. apply authorize_except_plain.
      * injection H as -> _. apply authorize_except_plain.
    + injection H as -> _. apply authorize_except_plain.
  - destruct (authorize_oauth E oreq w) as [[r|e] w'] eqn:A; cbn.
    + now left.
    + right. apply raises_only_authorize_oauth in A. now subst e.
Qed.

Lemma C5_unclassified_exceptions_witness :
  (exists w',
      login Sample.broken
        {| email := "user@example.com"; verification_code := None |}
        startup_world
      = (Raise (HTTPException 500 "Connection closed"), w')) /\
  (exists r w',
      authorize_oauth Sample.broken
        {| oauth_url := "https://claude.ai/oauth/authorize" |} startup_world
      = (Return r, w') /\
      success r = false /\ error r = Some "Connection closed").
Proof.
  destruct (C5_unclassified_exceptions Sample.broken
              {| email := "user@example.com"; verification_code := None |}
              {| oauth_url := "https://claude.ai/oauth/authorize" |}
              startup_world) as [L [A _]].
  split.
  - exact (L (Exception "Connection closed") _ eq_refl).
  - destruct (A "Connection closed" _ eq_refl) as [r [w' [H [S [Er _]]]]].
    exists r, w'. auto.
Defined.

(** ** The phases of [authorize_oauth] *)

Lemma close_if_new_returns page pages w :
  close_if_new page pages w = (Return tt, snd (close_if_new page pages w)).
Proof. destruct pages; reflexivity. Qed.

Lemma arrived_authorize E request w page pages w1 :
  arrived E request w page pages w1 ->
  authorize_oauth E request w
  = if PyStr.contains "login" (env_url E (trace w1) page)
    then (Raise not_logged_in, snd (close_if_new page pages w1))
    else try_except (after_navigation E page pages)
           (authorize_except E (Some page) pages) w1.
Proof.
  intros [w0 [C [O N]]].
  unfold authorize_oauth, bind, attempt. rewrite C, O.
  unfold try_except, authorize_steps, bind. rewrite N.
  unfold page_url.
  destruct (PyStr.contains "login" (env_url E (trace w1) page));
    [|reflexivity].
  rewrite close_if_new_returns. reflexivity.
Qed.

Lemma reaches_extraction_authorize E request w page pages w3 :
  reaches_extraction E request w page pages w3 ->
  authorize_oauth E request w
  = try_except (extract_code E page pages)
      (authorize_except E (Some page) pages) w3.
Proof.
  intros [w1 [w2 [A [L [C S]]]]].
  rewrite (arrived_authorize _ _ _ _ _ _ A), L.
  unfold try_except, after_navigation, bind. rewrite C. cbn [negb].
  now rewrite S.
Qed.

(** ** The code of the final URL *)

Lemma code_of_url_value url rest w :
  PyStr.after_first "code=" url = Some rest ->
  code_of_url url w
  = (Return (PyStr.before_first "&" (PyStr.before_first "code=" rest)), w).
Proof.
  intros A. unfold code_of_url, bind, getitem.
  rewrite (PyStrFacts.split_second _ _ _ _ A). unfold ret at 1.
  now rewrite PyStrFacts.split_head.
Qed.

Lemma extract_code_of_url E page pages w rest :
  PyStr.after_first "code=" (env_url E (trace w) page) = Some rest ->
  exists r,
    extract_code E page pages w = (Return r, w) /\
    success r = true /\
    code r = Some (PyStr.before_first "&" (PyStr.before_first "code=" rest))
    /\ error r = None.
Proof.
  intros A. unfold extract_code, bind, page_url.
  assert (C : PyStr.contains "code=" (env_url E (trace w) page) = true)
    by (apply PyStrFacts.after_first_contains; eauto).
  rewrite C, (code_of_url_value _ _ _ A).
  unfold OAuthResponse_new. eauto.
Qed.

(** C1, as amended.  When [authorize_oauth] reaches the extraction and the
    final URL contains [code=], the response has [success] true and its
    code is the text that follows the first [code=] up to the next [&], as
    it stands in the URL (no URL-decoding), provided that text contains no
    further [code=].  No browser call is made after the URL is read. *)
Theorem C1_code_of_final_url E request w page pages w3 rest :
  reaches_extraction E request w page pages w3 ->
  PyStr.after_first "code=" (env_url E (trace w3) page) = Some rest ->
  PyStr.contains "code=" (PyStr.before_first "&" rest) = false ->
  PyStr.contains "code=" (env_url E (trace w3) page) = true /\
  exists r,
    authorize_oauth E request w = (Return r, w3) /\
    success r = true /\
    code r = Some (PyStr.before_first "&" rest) /\
    error r = None.
Proof.
  intros H A N. split; [apply PyStrFacts.after_first_contains; eauto|].
  rewrite (reaches_extraction_authorize _ _ _ _ _ _ H).
  destruct (extract_code_of_url E page pages w3 rest A) as [r [X [S [C Er]]]].
  exists r. unfold try_except. rewrite X. repeat split; auto.
  rewrite C. f_equal.
  apply (PyStrFacts.before_single_before "&" "code=" rest eq_refl N).
Qed.

(** Runs the phases of a call in a sample environment. *)
Ltac run_phases :=
  unfold reaches_extraction, arrived;
  repeat first [ eexists | split ]; vm_compute; reflexivity.

Lemma C1_code_of_final_url_witness :
  exists r w3,
    authorize_oauth (Sample.app "https://app.example/cb?code=abc123&state=x")
      Sample.authorize_request startup_world = (Return r, w3) /\
    success r = true /\ code r = Some "abc123".
Proof.
  eassert (R : reaches_extraction
                 (Sample.app "https://app.example/cb?code=abc123&state=x")
                 Sample.authorize_request startup_world 0 [] _)
    by run_phases.
  destruct (C1_code_of_final_url _ _ _ _ _ _ "abc123&state=x" R
              eq_refl eq_refl) as [_ [r [H [S [C _]]]]].
  exists r. eexists. split; [exact H|]. split; [exact S | exact C].
Defined.

(** C1 as stated fails: the value [a%20b] of the final URL is returned as
    it stands, where the specification's value is its decoding. *)
Lemma C1_value_not_decoded :
  ~ Spec.code_as_specified
      (Sample.app "https://app.example/cb?code=a%20b&state=x")
      Sample.authorize_request startup_world.
Proof.
  intros H.
  eassert (R : reaches_extraction
                 (Sample.app "https://app.example/cb?code=a%20b&state=x")
                 Sample.authorize_request startup_world 0 [] _)
    by run_phases.
  destruct (H _ _ _ "a b" R eq_refl) as [r [w' [A [_ C]]]].
  vm_compute in A. injection A as <- _. discriminate C.
Qed.

(** ** The login redirect *)

(** C6, as amended.  When the navigation to the caller's URL completes and
    the URL then reached contains [login], [authorize_oauth] rejects with
    HTTP 401 and returns no code; it makes no further browser call than
    closing the page it opened itself. *)
Theorem C6_login_redirect_rejected E request w page pages w1 :
  arrived E request w page pages w1 ->
  PyStr.contains "login" (env_url E (trace w1) page) = true ->
  authorize_oauth E request w
  = (Raise not_logged_in, snd (close_if_new page pages w1)) /\
  http_status (fst (authorize_oauth E request w)) = 401 /\
  Spec.no_code (fst (authorize_oauth E request w)) /\
  trace (snd (authorize_oauth E request w))
  = (trace w1 ++ match pages with
                 | [] => [Close page]
                 | _ :: _ => []
                 end)%list.
Proof.
  intros A L. rewrite (arrived_authorize _ _ _ _ _ _ A), L.
  repeat split. destruct pages; cbn; [|now rewrite app_nil_r].
  now destruct (browser_context w1).
Qed.

Lemma C6_login_redirect_rejected_witness :
  http_status
    (fst (authorize_oauth (Sample.still "https://claude.ai/login?returnTo=x")
            Sample.authorize_request startup_world)) = 401.
Proof.
  eassert (A : arrived (Sample.still "https://claude.ai/login?returnTo=x")
                 Sample.authorize_request startup_world 0 [] _)
    by (unfold arrived; repeat first [eexists | split];
        vm_compute; reflexivity).
  exact (proj1 (proj2 (C6_login_redirect_rejected _ _ _ _ _ _ A eq_refl))).
Defined.

(** C6 as stated fails: the handler keeps no record of a login.  Called on
    the world left by the startup, before any login, with the URL of a site
    that shows a button and redirects with a code, it returns that code. *)
Lemma C6_code_without_login :
  ~ Spec.no_code
      (fst (authorize_oauth Sample.foreign Sample.foreign_request
              startup_world)).
Proof. vm_compute. intros [H _]. discriminate H. Qed.

(** ** The authorize button *)

Lemma with_trace_self w : with_trace w (trace w) = w.
Proof. now destruct w. Qed.

Lemma log_log_trace a b w :
  log b (log a w) = with_trace w (trace w ++ [a; b]).
Proof. unfold log, with_trace. cbn. now rewrite <- app_assoc. Qed.

Lemma click_step_passed E page s rest w t1 :
  passed_over E page s (trace w) t1 ->
  click_first_visible E page (s :: rest) w
  = click_first_visible E page rest (with_trace w t1).
Proof.
  intros P. cbn [click_first_visible]. unfold bind, try_except, ask, exec.
  inversion P as [msg V | V | msg V C]; subst; rewrite V; cbn.
  - reflexivity.
  - reflexivity.
  - rewrite C. cbn. now rewrite log_log_trace.
Qed.

Lemma click_step_pressed E page s rest w :
  pressed E page s (trace w) ->
  click_first_visible E page (s :: rest) w
  = (Return true,
     with_trace w (trace w ++ [FirstIsVisible page s; FirstClick page s])).
Proof.
  intros [V C]. cbn [click_first_visible]. unfold bind, try_except, ask, exec.
  rewrite V. cbn. rewrite C. cbn. now rewrite log_log_trace.
Qed.

Lemma click_loop_passed E page selectors t0 t :
  all_passed_over E page selectors t0 t ->
  forall w, trace w = t0 ->
  click_first_visible E page selectors w = (Return false, with_trace w t).
Proof.
  induction 1 as [t|s rest t t1 t2 P A IH]; intros w T; subst.
  - now rewrite with_trace_self.
  - rewrite (click_step_passed _ _ _ _ _ _ P). now rewrite IH.
Qed.

Lemma click_loop_pressed E page pre s post t0 t :
  all_passed_over E page pre t0 t ->
  pressed E page s t ->
  forall w, trace w = t0 ->
  click_first_visible E page (pre ++ s :: post) w
  = (Return true,
     with_trace w (t ++ [FirstIsVisible page s; FirstClick page s])).
Proof.
  induction 1 as [t|s' rest t t1 t2 P A IH]; intros Pr w T; subst.
  - now apply click_step_pressed.
  - cbn [app]. rewrite (click_step_passed _ _ _ _ _ _ P).
    now rewrite IH.
Qed.

(** Every run of the loop over the candidates is one of the two cases of
    [all_passed_over] and [pressed]. *)
Lemma click_loop_cases E page selectors :
  forall t,
    (exists t', all_passed_over E page selectors t t') \/
    (exists pre s post t',
        selectors = (pre ++ s :: post)%list /\
        all_passed_over E page pre t t' /\ pressed E page s t').
Proof.
  induction selectors as [|s rest IH]; intros t.
  - left. exists t. constructor.
  - destruct (env_bool E t (FirstIsVisible page s)) as [[|]|msg] eqn:V.
    + destruct (env_exec E (t ++ [FirstIsVisible page s])
                  (FirstClick page s)) as [msg|] eqn:C.
      * pose proof (po_click_raised E page s t msg V C) as P.
        destruct (IH (t ++ [FirstIsVisible page s; FirstClick page s])%list)
          as [[t' A] | [pre [s' [post [t' [S [A Pr]]]]]]].
        -- left. exists t'. econstructor; eassumption.
        -- right. exists (s :: pre), s', post, t'. subst rest.
           split; [reflexivity|].
           split; [econstructor; eassumption | exact Pr].
      * right. exists [], s, rest, t.
        split; [reflexivity|]. split; [constructor | now split].
    + pose proof (po_hidden E page s t V) as P.
      destruct (IH (t ++ [FirstIsVisible page s])%list)
        as [[t' A] | [pre [s' [post [t' [S [A Pr]]]]]]].
      * left. exists t'. econstructor; eassumption.
      * right. exists (s :: pre), s', post, t'. subst rest.
        split; [reflexivity|].
        split; [econstructor; eassumption | exact Pr].
    + pose proof (po_test_raised E page s t msg V) as P.
      destruct (IH (t ++ [FirstIsVisible page s])%list)
        as [[t' A] | [pre [s' [post [t' [S [A Pr]]]]]]].
      * left. exists t'. econstructor; eassumption.
      * right. exists (s :: pre), s', post, t'. subst rest.
        split; [reflexivity|].
        split; [econstructor; eassumption | exact Pr].
Qed.

Lemma respects_extraction E page pages :
  respects (fun _ _ => True) (fun a => negb (is_click a))
    (try_except (settle E page ;; extract_code E page pages)
       (authorize_except E (Some page) pages)).
Proof.
  unfold settle, extract_code, extract_from_page, code_of_url,
    authorize_except, close_if_new.
  repeat first
    [ progress respect_all
    | apply respects_close; [solve [intros; exact I] | reflexivity] ].
Qed.

(** C7, as amended.  After the navigation, on a page that is no login
    page, the candidates are tried in the order of [authorize_selectors]; a
    candidate whose visibility test raises or answers no, or whose click
    raises, is passed over.  The first candidate that is visible and whose
    click completes is clicked, and nothing is clicked after it.  When every
    candidate is passed over and the text of the body is read, the response
    is the failure [Could not find authorize button on page], and the call
    ends without any extraction. *)
Theorem C7_first_pressed_candidate E request w page pages w1 :
  arrived E request w page pages w1 ->
  PyStr.contains "login" (env_url E (trace w1) page) = false ->
  (forall pre s post t,
      authorize_selectors = (pre ++ s :: post)%list ->
      all_passed_over E page pre (trace w1) t ->
      pressed E page s t ->
      exists l,
        trace (snd (authorize_oauth E request w))
        = (t ++ [FirstIsVisible page s; FirstClick page s] ++ l)%list /\
        forallb (fun a => negb (is_click a)) l = true) /\
  (forall t body,
      all_passed_over E page authorize_selectors (trace w1) t ->
      env_text E t (TextContent page "body") = Returns (Some body) ->
      exists r w',
        authorize_oauth E request w = (Return r, w') /\
        success r = false /\ code r = None /\
        error r = Some "Could not find authorize button on page" /\
        trace w'
        = (t ++ TextContent page "body"
             :: match pages with
                | [] => [Close page]
                | _ :: _ => []
                end)%list).
Proof.
  intros A L. rewrite (arrived_authorize _ _ _ _ _ _ A), L. split.
  - intros pre s post t S P Pr.
    unfold try_except at 1, after_navigation, bind at 1. rewrite S.
    rewrite (click_loop_pressed _ _ _ _ _ _ _ P Pr w1 eq_refl).
    cbn [negb].
    match goal with
    | |- context [match ?m ?w with pair _ _ => _ end] =>
        destruct (m w) as [o w'] eqn:X
    end.
    assert (Y : try_except (settle E page ;; extract_code E page pages)
                  (authorize_except E (Some page) pages)
                  (with_trace w1
                     (t ++ [FirstIsVisible page s; FirstClick page s]))
                = (match o with
                   | Return a => (Return a, w')
                   | Raise e => authorize_except E (Some page) pages e w'
                   end))
      by (unfold try_except; now rewrite X).
    destruct (respects_extraction E page pages _ _ _
                (eq_trans Y (surjective_pairing _))) as [_ [l [T F]]].
    exists l. split; [|exact F].
    cbn [trace with_trace] in T. now rewrite <- app_assoc in T.
  - intros t body P B.
    unfold try_except, after_navigation, bind.
    rewrite (click_loop_passed _ _ _ _ _ P w1 eq_refl). cbn [negb].
    unfold ask. cbn [trace with_trace]. rewrite B. unfold ret at 1.
    rewrite close_if_new_returns. unfold OAuthResponse_new.
    eexists. eexists. split; [reflexivity|].
    repeat split. destruct pages; cbn; [|reflexivity].
    destruct (browser_context w1); cbn; now rewrite <- app_assoc.
Qed.

Ltac pass_over :=
  repeat first
    [ apply apo_nil
    | eapply apo_cons;
      [ first [ eapply po_hidden; vm_compute; reflexivity
              | eapply po_click_raised; vm_compute; reflexivity
              | eapply po_test_raised; vm_compute; reflexivity ] | ] ].

Lemma C7_first_pressed_candidate_witness :
  exists t l,
    trace (snd (authorize_oauth Sample.blocked Sample.authorize_request
                  startup_world))
    = (t ++ [FirstIsVisible 0 "button.btn-primary";
             FirstClick 0 "button.btn-primary"] ++ l)%list /\
    forallb (fun a => negb (is_click a)) l = true.
Proof.
  eassert (A : arrived Sample.blocked Sample.authorize_request startup_world
                 0 [] _)
    by (unfold arrived; repeat first [eexists | split];
        vm_compute; reflexivity).
  destruct (C7_first_pressed_candidate _ _ _ _ _ _ A eq_refl) as [C _].
  eassert (P : all_passed_over Sample.blocked 0
                 (firstn 4 authorize_selectors) _ _) by (cbn; pass_over).
  destruct (C (firstn 4 authorize_selectors) "button.btn-primary"
              (skipn 5 authorize_selectors) _ eq_refl P) as [l [T F]].
  { split; vm_compute; reflexivity. }
  eexists. exists l. split; [exact T | exact F].
Defined.

(** C7 as stated fails: when the click on the first visible candidate
    raises, the loop goes on and the next visible candidate is clicked as
    well. *)
Lemma C7_second_candidate_clicked :
  ~ Spec.first_visible_clicked Sample.blocked_visible
      (trace (snd (authorize_oauth Sample.blocked Sample.authorize_request
                     startup_world))).
Proof. unfold Spec.first_visible_clicked. vm_compute. discriminate. Qed.

(** ** The three extraction strategies *)

Lemma respects_probes E page selectors :
  respects eq is_element_probe (find_code_text E page selectors).
Proof. apply respects_find_code_text; intros; congruence || reflexivity. Qed.

Lemma extract_code_no_url E page pages w :
  PyStr.contains "code=" (env_url E (trace w) page) = false ->
  extract_code E page pages w
  = let (o, w1) := find_code_text E page code_selectors w in
    match o with
    | Return (Some c) => OAuthResponse_new E true (Some c) None w1
    | Return None =>
        match env_html E (trace w1) (Content page) with
        | Returns html =>
            match search_patterns code_patterns html with
            | Some c =>
                OAuthResponse_new E true (Some c) None
                  (log (Content page) w1)
            | None =>
                (close_if_new page pages ;;
                 OAuthResponse_new E false None
                   (Some "Could not extract authorization code from response"))
                  (log (Content page) w1)
            end
        | Throws _ =>
            (close_if_new page pages ;;
             OAuthResponse_new E false None
               (Some "Could not extract authorization code from response"))
              (log (Content page) w1)
        end
    | Raise e => (Raise e, w1)
    end.
Proof.
  intros C. unfold extract_code, bind at 1, page_url. rewrite C.
  unfold bind at 1, try_except, extract_from_page, bind at 1.
  destruct (find_code_text_total E page code_selectors w) as [f [w1 F]].
  rewrite F. destruct f as [c|]; [reflexivity|].
  unfold bind at 1, ask.
  destruct (env_html E (trace w1) (Content page)) as [html|msg];
    [|reflexivity].
  unfold ret at 1 2.
  destruct (search_patterns code_patterns html); reflexivity.
Qed.

Lemma extraction_failed E page pages w :
  exists r w',
    (close_if_new page pages ;;
     OAuthResponse_new E false None
       (Some "Could not extract authorization code from response")) w
    = (Return r, w') /\
    success r = false /\ code r = None /\
    error r = Some "Could not extract authorization code from response".
Proof.
  unfold bind. rewrite close_if_new_returns. unfold OAuthResponse_new.
  eexists. eexists. split; [reflexivity|]. auto.
Qed.

Lemma search_patterns_order html :
  search_patterns code_patterns html
  = match Re.search (nth 0 code_patterns []) html with
    | Some c => Some c
    | None =>
        match Re.search (nth 1 code_patterns []) html with
        | Some c => Some c
        | None => Re.search (nth 2 code_patterns []) html
        end
    end.
Proof.
  unfold code_patterns. cbn [search_patterns nth].
  repeat match goal with
         | |- context [match ?x with Some _ => _ | None => _ end] =>
             destruct x
         end; reflexivity.
Qed.

(** C8.  Once the extraction is reached, the code is looked for in three
    places in a fixed order.  (a) A [code=] in the final URL gives the code
    and ends the call with no further browser call.  Otherwise (b) the
    candidate elements are probed, and a text they yield is the code; the
    rendered HTML is then not read.  Otherwise (c) the HTML is read and the
    first of the three patterns that matches gives the code.  When none of
    the three yields a code, the response is a failure with a diagnostic
    message. *)
Theorem C8_extraction_order E request w page pages w3 :
  reaches_extraction E request w page pages w3 ->
  (forall rest,
      PyStr.after_first "code=" (env_url E (trace w3) page) = Some rest ->
      exists r,
        authorize_oauth E request w = (Return r, w3) /\
        success r = true /\
        code r
        = Some (PyStr.before_first "&" (PyStr.before_first "code=" rest))) /\
  (PyStr.contains "code=" (env_url E (trace w3) page) = false ->
   exists found w4 l,
     find_code_text E page code_selectors w3 = (Return found, w4) /\
     trace w4 = (trace w3 ++ l)%list /\
     forallb is_element_probe l = true /\
     match found with
     | Some c =>
         exists r,
           authorize_oauth E request w = (Return r, w4) /\
           success r = true /\ code r = Some c
     | None =>
         match env_html E (trace w4) (Content page) with
         | Returns html =>
             match
               match Re.search (nth 0 code_patterns []) html with
               | Some c => Some c
               | None =>
                   match Re.search (nth 1 code_patterns []) html with
                   | Some c => Some c
                   | None => Re.search (nth 2 code_patterns []) html
                   end
               end
             with
             | Some c =>
                 exists r,
                   authorize_oauth E request w
                   = (Return r, log (Content page) w4) /\
                   success r = true /\ code r = Some c
             | None =>
                 exists r w',
                   authorize_oauth E request w = (Return r, w') /\
                   success r = false /\ code r = None /\
                   error r
                   = Some "Could not extract authorization code from response"
             end
         | Throws _ =>
             exists r w',
               authorize_oauth E request w = (Return r, w') /\
               success r = false /\ code r = None /\
               error r
               = Some "Could not extract authorization code from response"
         end
     end).
Proof.
  intros H. rewrite (reaches_extraction_authorize _ _ _ _ _ _ H). split.
  - intros rest A.
    destruct (extract_code_of_url E page pages w3 rest A) as [r [X [S [C _]]]].
    exists r. unfold try_except. rewrite X. auto.
  - intros C. unfold try_except. rewrite (extract_code_no_url _ _ _ _ C).
    destruct (find_code_text_total E page code_selectors w3) as [f [w4 F]].
    destruct (respects_probes E page code_selectors _ _ _ F) as [_ [l [T P]]].
    exists f, w4, l. rewrite F. repeat split; auto.
    destruct f as [c|].
    + unfold OAuthResponse_new. eexists. split; [reflexivity|]. auto.
    + destruct (env_html E (trace w4) (Content page)) as [html|msg].
      * rewrite <- search_patterns_order.
        destruct (search_patterns code_patterns html) as [c|].
        -- unfold OAuthResponse_new. eexists. split; [reflexivity|]. auto.
        -- destruct (extraction_failed E page pages (log (Content page) w4))
             as [r [w' [X Y]]].
           exists r, w'. rewrite X. auto.
      * destruct (extraction_failed E page pages (log (Content page) w4))
          as [r [w' [X Y]]].
        exists r, w'. rewrite X. auto.
Qed.

Lemma C8_extraction_order_witness :
  exists r w',
    authorize_oauth Sample.code_shown Sample.authorize_request startup_world
    = (Return r, w') /\
    success r = true /\ code r = Some "auth-0123456789abcdef".
Proof.
  eassert (R : reaches_extraction Sample.code_shown Sample.authorize_request
                 startup_world 0 [] _) by run_phases.
  destruct (proj2 (C8_extraction_order _ _ _ _ _ _ R) eq_refl)
    as [found [w4 [l [F [_ [_ M]]]]]].
  vm_compute in F. injection F as <- <-.
  destruct M as [r [H [S C]]].
  exists r. eexists. split; [exact H|]. split; [exact S | exact C].
Defined.

(** ** Progress: the phases complete when the browser calls do *)

Lemma exec_completes E a w :
  env_exec E (trace w) a = None -> exec E a w = (Return tt, log a w).
Proof. intros H. unfold exec. now rewrite H. Qed.

Lemma fill_digits_completes E page n digits :
  (forall t a, env_exec E t a = None) ->
  forall i w, exists w', fill_digits E page n i digits w = (Return tt, w').
Proof.
  intros Calm. induction digits as [|d ds IH]; intros i w;
    cbn [fill_digits]; [unfold ret; eauto|].
  unfold bind. destruct (i <? n)%nat.
  - rewrite exec_completes by apply Calm. apply IH.
  - unfold ret at 1. apply IH.
Qed.

Lemma enter_code_completes E request page w0 :
  (forall t a, env_exec E t a = None) ->
  (forall t a, exists n, env_count E t a = Returns n) ->
  exists w2, enter_code E request page w0 = (Return tt, w2).
Proof.
  intros Calm Count. unfold enter_code, bind.
  repeat (rewrite exec_completes by apply Calm; cbv beta iota).
  unfold ask.
  match goal with
  | |- context [env_count E ?t ?a] => destruct (Count t a) as [n ->]
  end.
  match goal with
  | |- context [fill_digits E ?p ?k ?i ?ds ?w] =>
      destruct (fill_digits_completes E p k ds Calm i w) as [w1 ->]
  end.
  rewrite exec_completes by apply Calm. unfold sleep. eauto.
Qed.

Lemma settled_when_calm E request w c :
  (forall t a, env_exec E t a = None) ->
  (forall t a, exists n, env_count E t a = Returns n) ->
  browser_context w = Some c ->
  exists w2, settled E request w (opened c) w2.
Proof.
  intros Calm Count C.
  destruct (enter_code_completes E request (opened c)
              (log NewPage
                 (set_pages (pages c ++ [opened c]) (S (opened c)) w))
              Calm Count) as [w2 H].
  exists w2. eexists. split; [|exact H].
  unfold new_page. now rewrite C, Calm.
Qed.

Lemma navigate_completes E request page w0 :
  (forall t a, env_exec E t a = None) ->
  exists w1, navigate E request page w0 = (Return tt, w1).
Proof.
  intros Calm. unfold navigate, bind.
  repeat (rewrite exec_completes by apply Calm; cbv beta iota). eauto.
Qed.

Lemma arrived_when_calm E request w c :
  (forall t a, env_exec E t a = None) ->
  browser_context w = Some c ->
  exists page w1, arrived E request w page (pages c) w1.
Proof.
  intros Calm C. unfold arrived, context_pages. rewrite C.
  destruct (pages c) as [|p ps] eqn:X; cbn [open_page].
  - destruct (navigate_completes E request (opened c)
                (log NewPage (set_pages (pages c ++ [opened c])
                                (S (opened c)) w))
                Calm) as [w1 N].
    exists (opened c), w1. eexists. repeat split; [|exact N].
    unfold new_page. now rewrite C, Calm.
  - destruct (navigate_completes E request p w Calm) as [w1 N].
    exists p, w1, w. repeat split. exact N.
Qed.

(** ** The two steps of the login *)

Ltac crunch :=
  repeat (match goal with
          | |- context [match env_exec ?E ?t ?a with _ => _ end] =>
              destruct (env_exec E t a)
          | |- context [match env_bool ?E ?t ?a with _ => _ end] =>
              destruct (env_bool E t a) as [[|]|]
          | |- context [match Visual.type_email ?E ?p ?c ?w with _ => _ end] =>
              destruct (Visual.type_email E p c w) as [[[]|] ?]
          | |- context [if PyStr.contains ?a ?b then _ else _] =>
              destruct (PyStr.contains a b)
          end; cbn).

Lemma login_steps_first E request page w r w' :
  code_given (verification_code request) = false ->
  login_steps E request page w = (Return r, w') ->
  (status r = "verification_required" \/ status r = "error") /\
  session_active r = false.
Proof.
  intros G. unfold login_steps. rewrite G. cbn [negb].
  unfold bind, try_except, exec, close, ret. crunch;
    intros H; try discriminate H; injection H as <- _; cbn; auto.
Qed.

Lemma visual_login_steps_first E request page w o w' :
  code_given (verification_code request) = false ->
  Visual.login_steps E request page w = (Return o, w') ->
  exists r,
    o = Some r /\
    (status r = "challenge_detected" \/ status r = "verification_required"
     \/ status r = "error") /\
    session_active r = false.
Proof.
  intros G. unfold Visual.login_steps. rewrite G. cbn [negb].
  unfold bind, try_except, exec, ask, sleep, close, ret, page_url. cbn.
  crunch; intros H; try discriminate H; injection H as <- _;
    eexists; (split; [reflexivity|]); cbn; auto.
Qed.

(** C3, as amended.  An authenticated [POST /login] without a verification
    code either ends in HTTP 500 or answers with [session_active] false and
    a status that is [verification_required], [challenge_detected] or
    [error], never [success]: [verification_required] or [error] in
    [main.py], one of the three in [main_visual.py]. *)
Theorem C3_first_step_status E K request w :
  K <> EmptyString ->
  code_given (verification_code request) = false ->
  match post_login E K (Some K) request w with
  | (Return r, _) =>
      (status r = "verification_required" \/ status r = "error") /\
      status r <> "success" /\ session_active r = false
  | (Raise e, _) => exists d, e = HTTPException 500 d
  end /\
  match Visual.login E request w with
  | (Return (Some r), _) =>
      (status r = "challenge_detected" \/ status r = "verification_required"
       \/ status r = "error") /\
      status r <> "success" /\ session_active r = false
  | (Return None, _) => False
  | (Raise e, _) => exists d, e = HTTPException 500 d
  end.
Proof.
  intros HK G. rewrite post_login_authenticated by exact HK. split.
  - unfold login, bind, attempt, try_except.
    destruct (new_page E w) as [[page|e] w1]; [|unfold raise; eauto].
    destruct (login_steps E request page w1) as [[r|e] w2] eqn:S;
      [|unfold close, raise; eauto].
    destruct (login_steps_first _ _ _ _ _ _ G S) as [[X|X] A];
      rewrite X; repeat split; auto; discriminate.
  - unfold Visual.login, bind, attempt, try_except.
    destruct (new_page E w) as [[page|e] w1]; [|unfold raise; eauto].
    destruct (Visual.login_steps E request page w1) as [[o|e] w2] eqn:S;
      [|unfold close, raise; eauto].
    destruct (visual_login_steps_first _ _ _ _ _ _ G S)
      as [r [-> [[X|[X|X]] A]]];
      rewrite X; repeat split; auto; discriminate.
Qed.

Lemma C3_first_step_status_witness :
  match
    post_login (Sample.still "https://claude.ai/login") "s3cret"
      (Some "s3cret")
      {| email := "user@example.com"; verification_code := None |}
      startup_world
  with
  | (Return r, _) => status r <> "success" /\ session_active r = false
  | (Raise _, _) => True
  end.
Proof.
  pose proof (C3_first_step_status (Sample.still "https://claude.ai/login")
                "s3cret"
                {| email := "user@example.com"; verification_code := None |}
                startup_world ltac:(discriminate) eq_refl) as [H _].
  destruct (post_login _ _ _ _ _) as [[r|e] w']; [|exact I].
  destruct H as [_ [N A]]. split; [exact N | exact A].
Defined.

(** C3 as stated fails: when the verification prompt never shows, the
    status returned is [error]. *)
Lemma C3_error_status :
  ~ Spec.first_step_status
      (fst (post_login
              (Sample.login_site "https://claude.ai/login"
                 "text=verification code")
              "s3cret" (Some "s3cret")
              {| email := "user@example.com"; verification_code := None |}
              startup_world)).
Proof.
  intros H. destruct (H _ eq_refl) as [X|X]; vm_compute in X; discriminate X.
Qed.






(** * Further properties of the handlers

    ** Loops and contexts *)

Section RespectMoreLoops.

Variable R : option Context -> option Context -> Prop.
Variable P : Action -> bool.
Hypothesis R_refl : forall c, R c c.
Hypothesis R_trans : forall a b c, R a b -> R b c -> R a c.
Variable E : Env.
Variable page : Page.

Lemma respects_fill_digits n digits :
  (forall i d, P (NthFill page numeric_input i d) = true) ->
  forall i, respects R P (fill_digits E page n i digits).
Proof.
  intros Pf. induction digits as [|d ds IH]; intros i; cbn [fill_digits].
  - now apply respects_ret.
  - respect; auto.
Qed.

Lemma respects_type_email chars :
  (forall c, P (HandleType page email_input c) = true) ->
  (forall lo hi, P (Sleep lo hi) = true) ->
  respects R P (Visual.type_email E page chars).
Proof.
  intros Pt Ps. induction chars as [|c cs IH]; cbn [Visual.type_email].
  - now apply respects_ret.
  - respect; auto.
Qed.

End RespectMoreLoops.

Ltac respect_more :=
  repeat first
    [ apply respects_fill_digits
    | apply respects_type_email
    | progress respect_all ].

(** A computation that closes and opens no page leaves the context as it
    was. *)
Lemma keeps_context {A} (m : M A) w o w' :
  respects eq (fun _ => true) m ->
  m w = (o, w') -> browser_context w' = browser_context w.
Proof. intros H X. destruct (H _ _ _ X) as [C _]. now symmetry. Qed.

Lemma remove_page_fresh (p : Page) (ps : list Page) :
  Forall (fun q => q < p) ps -> remove_page p (ps ++ [p]) = ps.
Proof.
  intros F. unfold remove_page. rewrite filter_app. cbn.
  rewrite Nat.eqb_refl. cbn. rewrite app_nil_r.
  induction F as [|q qs Q F IH]; [reflexivity|].
  cbn. destruct (Nat.eqb_spec q p); [lia|]. cbn. now rewrite IH.
Qed.

Lemma remove_page_fresh_bound (p : Page) (ps : list Page) :
  Forall (fun q => q < p) ps ->
  Forall (fun q => q < S p) (remove_page p (ps ++ [p])).
Proof.
  intros F. rewrite (remove_page_fresh p ps F).
  revert F. apply Forall_impl. intros; lia.
Qed.

Lemma enter_code_keeps E request page :
  respects eq (fun _ => true) (enter_code E request page).
Proof. unfold enter_code. respect_more. Qed.

(** ** The pages of [login] *)

Lemma close_context p w c :
  browser_context w = Some c ->
  browser_context (snd (close p w))
  = Some {| pages := remove_page p (pages c); opened := opened c |}.
Proof. intros C. unfold close. cbn. now rewrite C. Qed.

Lemma login_steps_context E request page w c o w' :
  browser_context w = Some c ->
  login_steps E request page w = (o, w') ->
  match o with
  | Return r =>
      login_consistent r /\
      browser_context w'
      = Some (if session_active r then c
              else {| pages := remove_page page (pages c);
                      opened := opened c |})
  | Raise _ => browser_context w' = Some c
  end.
Proof.
  intros C. unfold login_steps.
  destruct (negb (code_given (verification_code request))).
  - unfold bind, try_except, exec, close, ret. crunch;
      intros H; injection H as <- <-; cbn; rewrite ?C; auto;
      (split; [right; split; [discriminate | reflexivity] | reflexivity]).
  - unfold bind.
    destruct (enter_code E request page w) as [[[]|e] w1] eqn:X;
      apply (keeps_context _ _ _ _ (enter_code_keeps E request page)) in X.
    + unfold page_url.
      destruct (PyStr.contains "claude.ai/chat" (env_url E (trace w1) page)
                || PyStr.contains "claude.ai/new"
                     (env_url E (trace w1) page)).
      * intros H. injection H as <- <-. cbn. rewrite X, C.
        split; [left; split; reflexivity | reflexivity].
      * unfold close, ret. intros H. injection H as <- <-. cbn.
        rewrite X, C.
        split; [right; split; [discriminate | reflexivity] | reflexivity].
    + intros H. injection H as <- <-. now rewrite X.
Qed.

(** X1.  [login] keeps the page it opens exactly when it answers
    [success]: the context then has one more page, the new one, at its end.
    On every other outcome (any other status, or HTTP 500) the open pages
    are those of before the call.  A response says [success] exactly when
    its [session_active] is true. *)
Theorem login_page_lifecycle E request w c o w' :
  browser_context w = Some c ->
  fresh_pages w ->
  login E request w = (o, w') ->
  fresh_pages w' /\
  match o with
  | Return r =>
      login_consistent r /\
      open_pages w'
      = (if session_active r then pages c ++ [opened c] else pages c)%list
  | Raise e => (exists d, e = HTTPException 500 d) /\ open_pages w' = pages c
  end.
Proof.
  intros C F H. specialize (F c C).
  unfold login, bind, attempt, new_page in H. rewrite C in H.
  destruct (env_exec E (trace w) NewPage) as [msg|].
  - cbn in H. injection H as <- <-. unfold fresh_pages, open_pages. cbn.
    rewrite C. split; [intros c' [= <-]; exact F | eauto].
  - cbn in H. unfold try_except in H.
    match type of H with
    | context [login_steps E request ?p ?w1] =>
        destruct (login_steps E request p w1) as [[r|e] w2] eqn:St;
        apply (login_steps_context E request p w1
                 {| pages := pages c ++ [opened c];
                    opened := Datatypes.S (opened c) |} _ _ eq_refl) in St
    end.
    + injection H as <- <-. destruct St as [L St].
      unfold fresh_pages, open_pages.
      destruct (session_active r); rewrite St; cbn [pages opened].
      * split; [|auto]. intros c' [= <-]. cbn.
        apply Forall_app. split.
        -- revert F. apply Forall_impl. intros; lia.
        -- repeat constructor.
      * split; [|split; [exact L | exact (remove_page_fresh _ _ F)]].
        intros c' [= <-]. exact (remove_page_fresh_bound _ _ F).
    + unfold bind, close, raise in H. injection H as <- <-.
      unfold fresh_pages, open_pages. cbn. rewrite St. cbn.
      split; [|split; [eauto | exact (remove_page_fresh _ _ F)]].
      intros c' [= <-]. exact (remove_page_fresh_bound _ _ F).
Qed.

Lemma startup_fresh : fresh_pages startup_world.
Proof. intros c [= <-]. constructor. Qed.

Lemma login_page_lifecycle_witness :
  open_pages
    (snd (login (Sample.still "https://claude.ai/new")
            {| email := "user@example.com";
               verification_code := Some "123456" |} startup_world))
  = [0] /\
  open_pages
    (snd (login (Sample.still "https://claude.ai/login")
            {| email := "user@example.com";
               verification_code := Some "123456" |} startup_world))
  = [].
Proof.
  split.
  - pose proof (login_page_lifecycle (Sample.still "https://claude.ai/new")
                  {| email := "user@example.com";
                     verification_code := Some "123456" |}
                  startup_world _ _ _ eq_refl startup_fresh
                  (surjective_pairing _)) as [_ H].
    vm_compute in H. destruct H as [_ H]. exact H.
  - pose proof (login_page_lifecycle (Sample.still "https://claude.ai/login")
                  {| email := "user@example.com";
                     verification_code := Some "123456" |}
                  startup_world _ _ _ eq_refl startup_fresh
                  (surjective_pairing _)) as [_ H].
    vm_compute in H. destruct H as [_ H]. exact H.
Defined.

(** ** The page [authorize_oauth] opens *)

Ltac keeping H :=
  apply keeps_context in H;
  [| solve [unfold navigate, settle, code_of_url, extract_from_page;
            respect_all]].

Ltac only_plain H :=
  match type of H with
  | ?m ?w = (Raise ?e, _) =>
      let Q := fresh in
      assert (Q : raises_only is_plain m)
        by (unfold navigate, settle, code_of_url, extract_from_page;
            raising_all);
      apply Q in H; destruct e; [clear H | destruct H]
  end.

Ltac agree :=
  unfold consistent; cbn; first [left; solve [eauto] | right; solve [eauto]].

Lemma close_if_new_context p ps w c :
  browser_context w = Some c ->
  browser_context (snd (close_if_new p ps w))
  = Some match ps with
         | [] => {| pages := remove_page p (pages c); opened := opened c |}
         | _ :: _ => c
         end.
Proof.
  intros C. destruct ps; cbn; [now rewrite C | exact C].
Qed.

Lemma authorize_steps_context E request p ps w c o w' :
  browser_context w = Some c ->
  authorize_steps E request p ps w = (o, w') ->
  match o with
  | Return r =>
      consistent r /\
      browser_context w'
      = Some (if success r then c
              else match ps with
                   | [] => {| pages := remove_page p (pages c);
                              opened := opened c |}
                   | _ :: _ => c
                   end)
  | Raise (Exception _) => browser_context w' = Some c
  | Raise (HTTPException _ _) =>
      o = Raise not_logged_in /\
      browser_context w'
      = Some match ps with
             | [] => {| pages := remove_page p (pages c);
                        opened := opened c |}
             | _ :: _ => c
             end
  end.
Proof.
  intros C. unfold authorize_steps, bind.
  destruct (navigate E request p w) as [[[]|e] w1] eqn:N.
  2:{ intros [= <- <-]. pose proof N as K. keeping K. only_plain N.
      now rewrite K. }
  keeping N. rewrite C in N. unfold page_url.
  destruct (PyStr.contains "login" (env_url E (trace w1) p)).
  { rewrite close_if_new_returns. unfold raise. intros [= <- <-].
    split; [reflexivity | now apply close_if_new_context]. }
  unfold after_navigation, bind.
  destruct (click_first_visible_total E p authorize_selectors w1)
    as [clicked [w2 K]].
  rewrite K. keeping K. rewrite N in K. destruct clicked; cbn [negb].
  - destruct (settle E p w2) as [[[]|e] w3] eqn:S3.
    2:{ intros [= <- <-]. pose proof S3 as X. keeping X. only_plain S3.
        now rewrite X. }
    keeping S3. rewrite K in S3. unfold extract_code, bind, page_url.
    destruct (PyStr.contains "code=" (env_url E (trace w3) p)).
    + destruct (code_of_url _ w3) as [[v|e] w4] eqn:V.
      2:{ intros [= <- <-]. pose proof V as X. keeping X. only_plain V.
          now rewrite X. }
      keeping V. rewrite S3 in V. unfold OAuthResponse_new.
      intros [= <- <-]. cbn. split; [agree | exact V].
    + destruct (try_except (extract_from_page E p) (fun _ => ret None) w3)
        as [[found|e] w4] eqn:X.
      2:{ exfalso. revert X. unfold try_except.
          destruct (extract_from_page E p w3) as [[f|e'] w5];
            discriminate. }
      keeping X. rewrite S3 in X. destruct found as [v|].
      * unfold OAuthResponse_new. intros [= <- <-]. cbn.
        split; [agree | exact X].
      * rewrite close_if_new_returns. unfold OAuthResponse_new.
        intros [= <- <-].
        split; [agree | now apply close_if_new_context].
  - unfold ask.
    destruct (env_text E (trace w2) (TextContent p "body")) as [[t|]|msg].
    + unfold ret at 1. rewrite close_if_new_returns.
      unfold OAuthResponse_new. intros [= <- <-].
      split; [agree | now apply close_if_new_context].
    + unfold raise. intros [= <- <-]. cbn. exact K.
    + intros [= <- <-]. cbn. exact K.
Qed.

Lemma authorize_except_context E page ps msg w c :
  browser_context w = Some c ->
  exists r w',
    authorize_except E page ps (Exception msg) w = (Return r, w') /\
    consistent r /\ success r = false /\ error r = Some msg /\
    browser_context w'
    = Some match page, ps with
           | Some p, [] => {| pages := remove_page p (pages c);
                              opened := opened c |}
           | _, _ => c
           end.
Proof.
  intros C. unfold authorize_except, bind, OAuthResponse_new, close, ret.
  destruct page as [p|]; [destruct ps as [|q qs]|];
    cbn; eexists; eexists; (split; [reflexivity|]); cbn; rewrite ?C;
    (split; [agree | auto]).
Qed.

Lemma open_page_context E ps w c o w1 :
  browser_context w = Some c ->
  open_page E ps w = (o, w1) ->
  match o with
  | Return p =>
      browser_context w1
      = Some match ps with
             | [] => {| pages := pages c ++ [p]; opened := S (opened c) |}
             | _ :: _ => c
             end /\
      p = hd (opened c) ps
  | Raise e => (exists msg, e = Exception msg) /\ browser_context w1 = Some c
  end.
Proof.
  intros C. destruct ps as [|q qs]; cbn [open_page].
  - unfold new_page. rewrite C.
    destruct (env_exec E (trace w) NewPage); intros [= <- <-]; cbn; eauto.
  - intros [= <- <-]. auto.
Qed.

(** X2.  Every response of [authorize_oauth] is either a success that
    carries a code and no error, or a failure that carries an error and no
    code. *)
Theorem authorize_response_consistent E request w r w' :
  authorize_oauth E request w = (Return r, w') -> consistent r.
Proof.
  unfold authorize_oauth, bind, attempt, context_pages.
  destruct (browser_context w) as [c|] eqn:C.
  - destruct (open_page E (pages c) w) as [[p|e] w1] eqn:O;
      apply (open_page_context _ _ _ _ _ _ C) in O.
    + destruct O as [C1 _]. unfold try_except.
      destruct (authorize_steps E request p (pages c) w1) as [[r1|e] w2]
        eqn:St;
        apply (authorize_steps_context _ _ _ _ _ _ _ _ C1) in St.
      * intros [= <- <-]. apply St.
      * destruct e as [msg|sc d].
        -- destruct (authorize_except_context E (Some p) (pages c) msg _ _ St)
             as [r1 [w3 [X [Y _]]]].
           rewrite X. now intros [= <- <-].
        -- discriminate.
    + destruct O as [[msg ->] C1].
      destruct (authorize_except_context E None (pages c) msg _ _ C1)
        as [r1 [w3 [X [Y _]]]].
      rewrite X. now intros [= <- <-].
  - unfold attribute_error, authorize_except, bind, ret, OAuthResponse_new.
    intros [= <- <-]. agree.
Qed.

Lemma authorize_response_consistent_witness :
  exists r w',
    authorize_oauth (Sample.app "https://app.example/cb?code=abc123&state=x")
      Sample.authorize_request startup_world = (Return r, w') /\
    consistent r.
Proof.
  eexists. eexists. split; [vm_compute; reflexivity|].
  apply (authorize_response_consistent
           (Sample.app "https://app.example/cb?code=abc123&state=x")
           Sample.authorize_request startup_world _
           (snd (authorize_oauth
                   (Sample.app "https://app.example/cb?code=abc123&state=x")
                   Sample.authorize_request startup_world))).
  vm_compute. reflexivity.
Defined.

(** X3.  Called on a context without pages, [authorize_oauth] keeps the
    page it opens exactly when it returns a code: after a success the
    context holds that one page, and after a failure response or the 401
    rejection it is empty again. *)
Theorem authorize_new_page_lifecycle E request w c o w' :
  browser_context w = Some c ->
  pages c = [] ->
  authorize_oauth E request w = (o, w') ->
  match o with
  | Return r => open_pages w' = if success r then [opened c] else []
  | Raise e => e = not_logged_in /\ open_pages w' = []
  end.
Proof.
  intros C P. unfold authorize_oauth, bind, attempt, context_pages.
  rewrite C, P.
  assert (Rm : remove_page (opened c) [opened c] = [])
    by (cbn; now rewrite Nat.eqb_refl).
  destruct (open_page E [] w) as [[p|e] w1] eqn:O;
    apply (open_page_context _ _ _ _ _ _ C) in O.
  - destruct O as [C1 ->]. cbn [hd] in *. rewrite P in C1. cbn [app] in C1.
    unfold try_except.
    destruct (authorize_steps E request (opened c) [] w1) as [[r1|e] w2]
      eqn:St;
      apply (authorize_steps_context _ _ _ _ _ _ _ _ C1) in St.
    + intros [= <- <-]. destruct St as [_ St]. unfold open_pages.
      rewrite St. destruct (success r1); cbn; [reflexivity | exact Rm].
    + destruct e as [msg|sc d].
      * destruct (authorize_except_context E (Some (opened c)) [] msg _ _ St)
          as [r1 [w3 [X [_ [Sf [_ Y]]]]]].
        intros H. pose proof (eq_trans (eq_sym X) H) as [= <- <-].
        unfold open_pages. rewrite Y, Sf. exact Rm.
      * destruct St as [[= -> ->] St]. cbn. intros [= <- <-].
        unfold open_pages. rewrite St. split; [reflexivity | exact Rm].
  - destruct O as [[msg ->] C1].
    destruct (authorize_except_context E None [] msg _ _ C1)
      as [r1 [w3 [X [_ [Sf [_ Y]]]]]].
    intros H. pose proof (eq_trans (eq_sym X) H) as [= <- <-].
    unfold open_pages. rewrite Y, Sf. exact P.
Qed.

Lemma authorize_new_page_lifecycle_witness :
  open_pages
    (snd (authorize_oauth
            (Sample.app "https://app.example/cb?code=abc123&state=x")
            Sample.authorize_request startup_world)) = [0] /\
  open_pages
    (snd (authorize_oauth (Sample.still "https://claude.ai/oauth/authorize")
            Sample.authorize_request startup_world)) = [].
Proof.
  split.
  - pose proof (authorize_new_page_lifecycle
                  (Sample.app "https://app.example/cb?code=abc123&state=x")
                  Sample.authorize_request startup_world _ _ _
                  eq_refl eq_refl (surjective_pairing _)) as H.
    vm_compute in H. exact H.
  - pose proof (authorize_new_page_lifecycle
                  (Sample.still "https://claude.ai/oauth/authorize")
                  Sample.authorize_request startup_world _ _ _
                  eq_refl eq_refl (surjective_pairing _)) as H.
    vm_compute in H. exact H.
Defined.

(** ** After the click *)

(** X4.  Once a candidate button was clicked and the wait after the click
    completed, [authorize_oauth] always answers with a response: a success,
    or the failure [Could not extract authorization code from response].
    No exception of the browser can turn the call into another error from
    there on, and the subscripts on the pieces of the URL are never out of
    range. *)
Theorem extraction_always_answers E request w page pages w3 :
  reaches_extraction E request w page pages w3 ->
  exists r w',
    authorize_oauth E request w = (Return r, w') /\
    (success r = true \/
     (success r = false /\
      error r = Some "Could not extract authorization code from response")).
Proof.
  intros H. rewrite (reaches_extraction_authorize _ _ _ _ _ _ H).
  unfold try_except.
  destruct (PyStr.contains "code=" (env_url E (trace w3) page)) eqn:C.
  - apply PyStrFacts.after_first_contains in C as [rest A].
    destruct (extract_code_of_url E page pages w3 rest A) as [r [X [S _]]].
    rewrite X. exists r, w3. auto.
  - rewrite (extract_code_no_url _ _ _ _ C).
    destruct (find_code_text_total E page code_selectors w3) as [f [w4 F]].
    rewrite F. destruct f as [c|].
    + unfold OAuthResponse_new. eexists. eexists. split; [reflexivity|].
      now left.
    + destruct (extraction_failed E page pages (log (Content page) w4))
        as [r [w' [X [Sf [_ Er]]]]].
      destruct (env_html E (trace w4) (Content page)) as [html|msg].
      * destruct (search_patterns code_patterns html) as [c|].
        -- unfold OAuthResponse_new. eexists. eexists.
           split; [reflexivity|]. now left.
        -- rewrite X. exists r, w'. auto.
      * rewrite X. exists r, w'. auto.
Qed.

Lemma extraction_always_answers_witness :
  exists r w',
    authorize_oauth Sample.code_shown Sample.authorize_request startup_world
    = (Return r, w') /\
    (success r = true \/
     (success r = false /\
      error r = Some "Could not extract authorization code from response")).
Proof.
  eassert (R : reaches_extraction Sample.code_shown Sample.authorize_request
                 startup_world 0 [] _) by run_phases.
  exact (extraction_always_answers _ _ _ _ _ _ R).
Defined.

(** ** What the extracted codes look like *)

Lemma startswith_trans p x y :
  PyStr.startswith p x = true -> PyStr.startswith x y = true ->
  PyStr.startswith p y = true.
Proof.
  revert x y. induction p as [|a p IH]; intros x y Hp Hx; [reflexivity|].
  destruct x as [|b x]; [discriminate|].
  destruct y as [|d y]; [discriminate|].
  cbn in *. apply andb_true_iff in Hp as [E1 Hp], Hx as [E2 Hx].
  apply Ascii.eqb_eq in E1, E2. subst. rewrite Ascii.eqb_refl. cbn.
  eauto.
Qed.

Lemma before_first_prefix sep s :
  PyStr.startswith (PyStr.before_first sep s) s = true.
Proof.
  induction s as [|c s IH]; cbn [PyStr.before_first].
  - now destruct (PyStr.startswith sep EmptyString).
  - destruct (PyStr.startswith sep (String c s)); [reflexivity|].
    cbn. now rewrite Ascii.eqb_refl.
Qed.

Lemma contains_prefix p x y :
  PyStr.startswith x y = true -> PyStr.contains p x = true ->
  PyStr.contains p y = true.
Proof.
  revert y. induction x as [|b x IH]; intros y Hx Hp.
  - cbn in Hp. destruct (PyStr.startswith p EmptyString) eqn:S;
      [|discriminate].
    destruct p; [|discriminate]. now destruct y.
  - destruct y as [|d y]; [discriminate|].
    cbn in Hx. apply andb_true_iff in Hx as [E1 Hx].
    apply Ascii.eqb_eq in E1. subst d.
    cbn [PyStr.contains] in *.
    destruct (PyStr.startswith p (String b x)) eqn:S.
    + assert (T : PyStr.startswith (String b x) (String b y) = true)
        by (cbn; now rewrite Ascii.eqb_refl).
      now rewrite (startswith_trans _ _ _ S T).
    + destruct (PyStr.startswith p (String b y)); [reflexivity|].
      now apply IH.
Qed.

Lemma before_first_free a sep s :
  PyStr.contains (String a sep) (PyStr.before_first (String a sep) s)
  = false.
Proof.
  induction s as [|c s IH]; cbn [PyStr.before_first].
  - now destruct (PyStr.startswith (String a sep) EmptyString).
  - destruct (PyStr.startswith (String a sep) (String c s)) eqn:S;
      [reflexivity|].
    cbn [PyStr.contains]. rewrite IH.
    destruct (PyStr.startswith (String a sep)
                (String c (PyStr.before_first (String a sep) s))) eqn:T;
      [|reflexivity].
    assert (X : PyStr.startswith
                  (String c (PyStr.before_first (String a sep) s))
                  (String c s) = true).
    { cbn. rewrite Ascii.eqb_refl. apply before_first_prefix. }
    rewrite (startswith_trans _ _ _ T X) in S. discriminate.
Qed.

(** X5.  A code taken from the final URL contains neither [&] nor
    [code=]. *)
Theorem url_code_is_one_value E request w page pages w3 :
  reaches_extraction E request w page pages w3 ->
  PyStr.contains "code=" (env_url E (trace w3) page) = true ->
  exists r v,
    authorize_oauth E request w = (Return r, w3) /\
    success r = true /\ code r = Some v /\
    PyStr.contains "&" v = false /\ PyStr.contains "code=" v = false.
Proof.
  intros H C. apply PyStrFacts.after_first_contains in C as [rest A].
  rewrite (reaches_extraction_authorize _ _ _ _ _ _ H). unfold try_except.
  destruct (extract_code_of_url E page pages w3 rest A) as [r [X [S [V _]]]].
  rewrite X. exists r. eexists. repeat split; [exact S | exact V | |].
  - apply before_first_free.
  - destruct (PyStr.contains "code="
                (PyStr.before_first "&"
                   (PyStr.before_first "code=" rest))) eqn:Y;
      [|reflexivity].
    apply (contains_prefix _ _ _ (before_first_prefix "&" _)) in Y.
    now rewrite before_first_free in Y.
Qed.

Lemma url_code_is_one_value_witness :
  exists r v,
    authorize_oauth
      (Sample.app "https://app.example/cb?code=abcode=x&state=y")
      Sample.authorize_request startup_world = (Return r, snd
        (authorize_oauth
           (Sample.app "https://app.example/cb?code=abcode=x&state=y")
           Sample.authorize_request startup_world)) /\
    code r = Some v /\ PyStr.contains "code=" v = false.
Proof.
  eassert (R : reaches_extraction
                 (Sample.app "https://app.example/cb?code=abcode=x&state=y")
                 Sample.authorize_request startup_world 0 [] _)
    by run_phases.
  destruct (url_code_is_one_value _ _ _ _ _ _ R eq_refl)
    as [r [v [H [_ [V [_ N]]]]]].
  exists r, v. split; [|split; [exact V | exact N]].
  rewrite H. reflexivity.
Defined.

Lemma span_all cls s a b :
  Re.span cls s = (a, b) -> all_chars cls a = true.
Proof.
  revert a b. induction s as [|c s IH]; intros a b; cbn [Re.span].
  - now intros [= <- <-].
  - destruct (cls c) eqn:C; [|now intros [= <- <-]].
    destruct (Re.span cls s) as [a' b'] eqn:S. intros [= <- <-].
    cbn. rewrite C. now apply (IH a' b').
Qed.

Lemma match_at_group items :
  Forall token_capture items ->
  forall s g c,
    Re.match_at items s g = Some c ->
    c = g \/ (20 <= String.length c /\ all_chars Re.token_char c = true).
Proof.
  induction 1 as [|it items T F IH]; intros s g c; cbn [Re.match_at].
  - intros [= <-]. now left.
  - destruct it as [l| |cls|cls min].
    + destruct (PyStr.startswith l s); [apply IH | discriminate].
    + destruct s as [|ch s]; [discriminate|].
      destruct (Re.is_newline ch); [discriminate | apply IH].
    + destruct (Re.span cls s) as [a b].
      destruct (PyStr.truthy a); [apply IH | discriminate].
    + destruct T as [-> M].
      destruct (Re.span Re.token_char s) as [a b] eqn:S.
      destruct (Nat.leb_spec min (String.length a)); [|discriminate].
      intros X. right. destruct (IH _ _ _ X) as [-> | G]; [|exact G].
      split; [lia | exact (span_all _ _ _ _ S)].
Qed.

Lemma match_at_captured items :
  Exists is_capture items -> Forall token_capture items ->
  forall s g c,
    Re.match_at items s g = Some c ->
    20 <= String.length c /\ all_chars Re.token_char c = true.
Proof.
  induction 1 as [it items C | it items C IH]; intros F s g c;
    inversion F as [|? ? T F']; subst.
  - destruct it as [l| |cls|cls min]; try destruct C.
    destruct T as [-> M]. cbn [Re.match_at].
    destruct (Re.span Re.token_char s) as [a b] eqn:S.
    destruct (Nat.leb_spec min (String.length a)); [|discriminate].
    intros X. destruct (match_at_group _ F' _ _ _ X) as [-> | G];
      [|exact G].
    split; [lia | exact (span_all _ _ _ _ S)].
  - cbn [Re.match_at]. destruct it as [l| |cls|cls min].
    + destruct (PyStr.startswith l s); [now apply IH | discriminate].
    + destruct s as [|ch s]; [discriminate|].
      destruct (Re.is_newline ch); [discriminate | now apply IH].
    + destruct (Re.span cls s) as [a b].
      destruct (PyStr.truthy a); [now apply IH | discriminate].
    + destruct (Re.span cls s) as [a b].
      destruct (min <=? String.length a)%nat; [now apply IH | discriminate].
Qed.

Lemma search_captured items s c :
  Exists is_capture items -> Forall token_capture items ->
  Re.search items s = Some c ->
  20 <= String.length c /\ all_chars Re.token_char c = true.
Proof.
  intros X F. induction s as [|ch s IH]; cbn [Re.search].
  - destruct (Re.match_at items EmptyString EmptyString) eqn:M;
      [|discriminate].
    intros [= <-]. exact (match_at_captured _ X F _ _ _ M).
  - destruct (Re.match_at items (String ch s) EmptyString) eqn:M;
      [|exact IH].
    intros [= <-]. exact (match_at_captured _ X F _ _ _ M).
Qed.

Ltac capture_somewhere :=
  first [ apply Exists_cons_hd; exact I
        | apply Exists_cons_tl; capture_somewhere ].

Ltac all_token :=
  repeat (apply Forall_cons;
          [first [exact I | split; [reflexivity | lia]] |]);
  apply Forall_nil.

(** X6.  A code found by the patterns in the rendered HTML has at least
    20 characters, all of them letters, digits, [_] or [-]. *)
Theorem pattern_code_shape html c :
  search_patterns code_patterns html = Some c ->
  20 <= String.length c /\ all_chars Re.token_char c = true.
Proof.
  assert (G : Forall (fun p => Exists is_capture p /\ Forall token_capture p)
                code_patterns).
  { unfold code_patterns.
    repeat (apply Forall_cons; [split; [capture_somewhere | all_token] |]).
    apply Forall_nil. }
  induction G as [|p ps [X F] G IH]; cbn [search_patterns]; [discriminate|].
  destruct (Re.search p html) as [v|] eqn:S; [|exact IH].
  intros [= <-]. exact (search_captured _ _ _ X F S).
Qed.

Lemma pattern_code_shape_witness :
  20 <= String.length "tok_0123456789abcdef-XYZ" /\
  all_chars Re.token_char "tok_0123456789abcdef-XYZ" = true.
Proof.
  apply (pattern_code_shape
           ("{" ++ quoted "code" ++ ": " ++ quoted "tok_0123456789abcdef-XYZ"
            ++ "}")).
  reflexivity.
Defined.

Lemma rstrip_cons c s :
  PyStr.isspace c = false ->
  PyStr.rstrip (String c s) = String c (PyStr.rstrip s).
Proof.
  intros H. cbn [PyStr.rstrip]. rewrite H.
  now destruct (PyStr.rstrip s).
Qed.

Lemma rstrip_idempotent s : PyStr.rstrip (PyStr.rstrip s) = PyStr.rstrip s.
Proof.
  induction s as [|c s IH]; [reflexivity|].
  cbn [PyStr.rstrip]. destruct (PyStr.rstrip s) as [|d r] eqn:R.
  - destruct (PyStr.isspace c) eqn:Sp; [reflexivity|].
    cbn. now rewrite Sp.
  - change (PyStr.rstrip (String c (String d r)))
      with (match PyStr.rstrip (String d r) with
            | EmptyString =>
                if PyStr.isspace c then EmptyString
                else String c EmptyString
            | String _ _ as r0 => String c r0
            end).
    now rewrite IH.
Qed.

Lemma lstrip_head s :
  PyStr.lstrip s = EmptyString \/
  exists c t, PyStr.lstrip s = String c t /\ PyStr.isspace c = false.
Proof.
  induction s as [|c s IH]; [now left|].
  cbn [PyStr.lstrip]. destruct (PyStr.isspace c) eqn:Sp; [exact IH|].
  right. eauto.
Qed.

Lemma strip_idempotent s : PyStr.strip (PyStr.strip s) = PyStr.strip s.
Proof.
  unfold PyStr.strip.
  destruct (lstrip_head s) as [-> | [c [t [-> Sp]]]]; [reflexivity|].
  rewrite (rstrip_cons c t Sp). cbn [PyStr.lstrip]. rewrite Sp.
  rewrite (rstrip_cons c _ Sp). now rewrite rstrip_idempotent.
Qed.

Lemma lstrip_spaces s :
  all_chars PyStr.isspace s = true -> PyStr.lstrip s = EmptyString.
Proof.
  induction s as [|c s IH]; [reflexivity|].
  cbn. intros H. apply andb_true_iff in H as [Sp H]. rewrite Sp. auto.
Qed.

Lemma find_code_text_some E page selectors :
  forall w v w',
    find_code_text E page selectors w = (Return (Some v), w') ->
    exists selector t tr,
      In selector selectors /\
      env_bool E tr (FirstIsVisible page selector) = Returns true /\
      env_text E (tr ++ [FirstIsVisible page selector])
        (FirstTextContent page selector) = Returns (Some t) /\
      10 < String.length t /\ v = PyStr.strip t.
Proof.
  induction selectors as [|s rest IH]; intros w v w';
    cbn [find_code_text]; [discriminate|].
  unfold bind, try_except, ask, ret.
  assert (Next : forall w1,
             find_code_text E page rest w1 = (Return (Some v), w') ->
             exists selector t tr,
               In selector (s :: rest) /\
               env_bool E tr (FirstIsVisible page selector) = Returns true /\
               env_text E (tr ++ [FirstIsVisible page selector])
                 (FirstTextContent page selector) = Returns (Some t) /\
               10 < String.length t /\ v = PyStr.strip t).
  { intros w1 H. destruct (IH _ _ _ H) as [sel [t [tr [I X]]]].
    exists sel, t, tr. split; [now right | exact X]. }
  destruct (env_bool E (trace w) (FirstIsVisible page s)) as [[|]|msg] eqn:V;
    try apply Next.
  cbn [trace log].
  destruct (env_text E (trace w ++ [FirstIsVisible page s])
              (FirstTextContent page s)) as [[t|]|msg] eqn:T;
    try apply Next.
  destruct (PyStr.truthy t && (10 <? String.length t)%nat) eqn:L;
    [|apply Next].
  intros [= <- <-]. exists s, t, (trace w).
  apply andb_true_iff in L as [_ L]. apply Nat.ltb_lt in L.
  repeat split; auto. now left.
Qed.

(** X7.  A code read from an element of the page is the text of a visible
    candidate of the list, stripped; that text has more than 10 characters,
    and the code has no white space at either end. *)
Theorem element_code_stripped E page w v w' :
  find_code_text E page code_selectors w = (Return (Some v), w') ->
  PyStr.strip v = v /\
  exists selector t tr,
    In selector code_selectors /\
    env_bool E tr (FirstIsVisible page selector) = Returns true /\
    env_text E (tr ++ [FirstIsVisible page selector])
      (FirstTextContent page selector) = Returns (Some t) /\
    10 < String.length t /\ v = PyStr.strip t.
Proof.
  intros H. destruct (find_code_text_some _ _ _ _ _ _ H)
    as [sel [t [tr [I [V [T [L ->]]]]]]].
  split; [apply strip_idempotent|]. exists sel, t, tr. auto.
Qed.

Lemma element_code_stripped_witness :
  PyStr.strip "auth-0123456789abcdef" = "auth-0123456789abcdef".
Proof.
  eassert (F : find_code_text Sample.code_shown 0 code_selectors
                 (Sample.one_page 0 [])
               = (Return (Some "auth-0123456789abcdef"), _))
    by (vm_compute; reflexivity).
  exact (proj1 (element_code_stripped _ _ _ _ _ F)).
Defined.

(** X8.  The length of an element's text is tested before the text is
    stripped: when the first candidate element is visible and its text is
    more than 10 characters of white space only, [authorize_oauth] answers
    [success] true with the empty string as code. *)
Theorem blank_element_gives_empty_code E request w page pages w3
  selector rest t :
  reaches_extraction E request w page pages w3 ->
  PyStr.contains "code=" (env_url E (trace w3) page) = false ->
  code_selectors = selector :: rest ->
  env_bool E (trace w3) (FirstIsVisible page selector) = Returns true ->
  env_text E (trace w3 ++ [FirstIsVisible page selector])
    (FirstTextContent page selector) = Returns (Some t) ->
  10 < String.length t ->
  all_chars PyStr.isspace t = true ->
  exists r w',
    authorize_oauth E request w = (Return r, w') /\
    success r = true /\ code r = Some EmptyString /\ error r = None.
Proof.
  intros H C Sel V T L Sp.
  rewrite (reaches_extraction_authorize _ _ _ _ _ _ H). unfold try_except.
  rewrite (extract_code_no_url _ _ _ _ C), Sel.
  cbn [find_code_text]. unfold bind, try_except, ask.
  rewrite V. cbv beta iota. cbn [log trace]. rewrite T. cbv beta iota.
  assert (Tr : PyStr.truthy t = true) by (destruct t; [cbn in L; lia | auto]).
  apply Nat.ltb_lt in L. rewrite Tr, L. cbn [andb]. unfold ret.
  unfold PyStr.strip. rewrite (lstrip_spaces t Sp). cbn [PyStr.rstrip].
  unfold OAuthResponse_new. eexists. eexists. split; [reflexivity|]. auto.
Qed.

Lemma blank_element_gives_empty_code_witness :
  exists r w',
    authorize_oauth Sample.blank_code Sample.authorize_request startup_world
    = (Return r, w') /\
    success r = true /\ code r = Some EmptyString.
Proof.
  eassert (R : reaches_extraction Sample.blank_code Sample.authorize_request
                 startup_world 0 [] _) by run_phases.
  destruct (blank_element_gives_empty_code _ _ _ _ _ _ _ _ "            "
              R eq_refl eq_refl eq_refl eq_refl)
    as [r [w' [H [S [C _]]]]]; [cbn; lia | reflexivity |].
  exists r, w'. auto.
Defined.

(** ** No button found *)

(** X9.  When no candidate button is clicked, the text of the body is read
    for a log line before the response is built.  If that read raises, the
    response carries the string of the exception as its error; if it gives
    no text, the slice of the log line fails and the error is that of the
    failed subscript.  In both cases the error is not that of the missing
    button, and a page the handler opened itself is closed. *)
Theorem body_text_decides_error E request w page pages w1 t :
  arrived E request w page pages w1 ->
  PyStr.contains "login" (env_url E (trace w1) page) = false ->
  all_passed_over E page authorize_selectors (trace w1) t ->
  (forall msg,
      env_text E t (TextContent page "body") = Throws msg ->
      exists r w',
        authorize_oauth E request w = (Return r, w') /\
        success r = false /\ error r = Some msg /\
        open_pages w' = match pages with
                        | [] => remove_page page (open_pages w1)
                        | _ :: _ => open_pages w1
                        end) /\
  (env_text E t (TextContent page "body") = Returns None ->
   exists r w',
     authorize_oauth E request w = (Return r, w') /\
     success r = false /\
     error r = Some "'NoneType' object is not subscriptable" /\
     open_pages w' = match pages with
                     | [] => remove_page page (open_pages w1)
                     | _ :: _ => open_pages w1
                     end).
Proof.
  intros A L P. rewrite (arrived_authorize _ _ _ _ _ _ A), L.
  unfold try_except, after_navigation, bind.
  rewrite (click_loop_passed _ _ _ _ _ P w1 eq_refl). cbn [negb].
  unfold ask. cbn [trace with_trace].
  split; [intros msg B | intros B]; rewrite B; cbn [raise];
    unfold authorize_except, bind, close, ret, OAuthResponse_new, open_pages;
    destruct pages as [|q qs]; cbn;
      destruct (browser_context w1) eqn:B1; cbn; rewrite ?B1; cbn;
        (eexists; eexists; split; [reflexivity|]); cbn; rewrite ?B1; auto.
Qed.

Lemma body_text_decides_error_witness :
  exists r w',
    authorize_oauth (Sample.login_site "https://claude.ai/oauth" "none")
      Sample.authorize_request startup_world = (Return r, w') /\
    error r = Some "'NoneType' object is not subscriptable".
Proof.
  eassert (A : arrived (Sample.login_site "https://claude.ai/oauth" "none")
                 Sample.authorize_request startup_world 0 [] _)
    by (unfold arrived; repeat first [eexists | split];
        vm_compute; reflexivity).
  eassert (P : all_passed_over
                 (Sample.login_site "https://claude.ai/oauth" "none") 0
                 authorize_selectors _ _) by (cbn; pass_over).
  destruct (proj2 (body_text_decides_error _ _ _ _ _ _ _ A eq_refl P)
              eq_refl) as [r [w' [H [_ [Er _]]]]].
  exists r, w'. auto.
Defined.

(** ** Edge cases of the requests and of the context *)

(** X10.  While the global [browser_context] is [None], no handler reaches
    the browser: [login] and [manual_login] end in HTTP 500 and
    [authorize_oauth] answers [success] false, each with the string of the
    attribute error, and [get_status] answers [browser_active] false with no
    page and no error. *)
Theorem without_context E headless lreq oreq w :
  browser_context w = None ->
  login E lreq w
  = (Raise (HTTPException 500
              "'NoneType' object has no attribute 'new_page'"), w) /\
  Visual.manual_login E w
  = (Raise (HTTPException 500
              "'NoneType' object has no attribute 'new_page'"), w) /\
  (exists r,
      authorize_oauth E oreq w = (Return r, w) /\
      success r = false /\ code r = None /\
      error r = Some "'NoneType' object has no attribute 'pages'") /\
  (exists r,
      Visual.authorize_oauth E oreq w = (Return (Some r), w) /\
      success r = false /\ code r = None /\
      error r = Some "'NoneType' object has no attribute 'pages'") /\
  (exists r,
      get_status E w = (Return r, w) /\
      browser_active r = false /\ pages_open r = 0 /\
      current_url r = None /\ logged_in r = false /\
      status_error r = None) /\
  (exists r,
      Visual.get_status E headless w = (Return r, w) /\
      Visual.browser_active r = false /\ Visual.pages_open r = 0 /\
      Visual.logged_in r = false /\ Visual.status_error r = None).
Proof.
  intros C.
  unfold login, Visual.manual_login, authorize_oauth, Visual.authorize_oauth,
    get_status, Visual.get_status, bind, attempt, try_except, new_page,
    context_pages.
  rewrite C. cbn.
  repeat split; eexists; (split; [reflexivity|]); cbn; auto.
Qed.

Lemma without_context_witness :
  login (Sample.still "about:blank")
    {| email := "user@example.com"; verification_code := None |}
    Sample.not_started
  = (Raise (HTTPException 500
              "'NoneType' object has no attribute 'new_page'"),
     Sample.not_started).
Proof.
  exact (proj1 (without_context (Sample.still "about:blank") true
                  {| email := "user@example.com";
                     verification_code := None |}
                  Sample.authorize_request Sample.not_started eq_refl)).
Defined.

(** X11.  While the fills complete, the code is typed one character per
    input, in order, and only as far as both the characters and the inputs
    last: characters beyond the number of inputs are dropped, and no input
    beyond the list is addressed. *)
Theorem fill_digits_trace E page code_inputs digits :
  (forall t a, env_exec E t a = None) ->
  forall i w,
    fill_digits E page code_inputs i digits w
    = (Return tt,
       with_trace w (trace w ++ digit_fills page code_inputs i digits)) /\
    List.length (digit_fills page code_inputs i digits)
    = Nat.min (code_inputs - i) (List.length digits).
Proof.
  intros Calm. unfold digit_fills.
  induction digits as [|d ds IH]; intros i w.
  - cbn [fill_digits]. rewrite combine_nil. cbn.
    rewrite app_nil_r, with_trace_self, Nat.min_0_r. auto.
  - cbn [fill_digits]. unfold bind.
    destruct (Nat.ltb_spec i code_inputs) as [L|L].
    + rewrite exec_completes by apply Calm.
      destruct (IH (S i) (log (NthFill page numeric_input i d) w))
        as [X Y].
      rewrite X.
      replace (code_inputs - i) with (S (code_inputs - S i)) by lia.
      cbn [seq combine map fst snd List.length]. rewrite Y. split; [|lia].
      f_equal. unfold with_trace, log. cbn. now rewrite <- app_assoc.
    + unfold ret at 1. destruct (IH (S i) w) as [X Y]. rewrite X.
      replace (code_inputs - i) with 0 by lia.
      replace (code_inputs - S i) with 0 by lia.
      cbn. auto.
Qed.

Lemma fill_digits_trace_witness :
  fill_digits (Sample.still "https://claude.ai/login") 0 6 0
    (PyStr.chars "12345678") (Sample.one_page 0 [])
  = (Return tt,
     Sample.one_page 0
       [NthFill 0 numeric_input 0 "1"; NthFill 0 numeric_input 1 "2";
        NthFill 0 numeric_input 2 "3"; NthFill 0 numeric_input 3 "4";
        NthFill 0 numeric_input 4 "5"; NthFill 0 numeric_input 5 "6"]).
Proof.
  exact (proj1 (fill_digits_trace (Sample.still "https://claude.ai/login")
                  0 6 (PyStr.chars "12345678")
                  (fun _ _ => eq_refl) 0 (Sample.one_page 0 []))).
Defined.

(** ** Pages across calls *)

Lemma login_success_context E request w c r w1 :
  browser_context w = Some c ->
  login E request w = (Return r, w1) ->
  session_active r = true ->
  browser_context w1
  = Some {| pages := pages c ++ [opened c]; opened := S (opened c) |}.
Proof.
  intros C H A. unfold login, bind, attempt, new_page in H. rewrite C in H.
  destruct (env_exec E (trace w) NewPage) as [msg|]; [discriminate H|].
  cbn in H. unfold try_except in H.
  match type of H with
  | context [login_steps E request ?p ?w0] =>
      destruct (login_steps E request p w0) as [[r1|e] w2] eqn:St;
      apply (login_steps_context E request p w0
               {| pages := pages c ++ [opened c];
                  opened := Datatypes.S (opened c) |} _ _ eq_refl) in St
  end.
  - injection H as <- <-. destruct St as [_ St]. now rewrite A in St.
  - discriminate H.
Qed.

(** X12.  [authorize_oauth] called after a successful [login] opens no
    page: it works on the first page of the context, which is the page of
    that login only when no page was open before it, and it leaves the
    pages as the login left them. *)
Theorem authorize_after_login E lreq oreq w c r w1 o w2 :
  browser_context w = Some c ->
  login E lreq w = (Return r, w1) ->
  session_active r = true ->
  authorize_oauth E oreq w1 = (o, w2) ->
  open_pages w2 = (pages c ++ [opened c])%list /\
  exists l,
    trace w2 = (trace w1 ++ l)%list /\
    forallb (on_page (hd (opened c) (pages c))) l = true.
Proof.
  intros C L A H.
  pose proof (login_success_context _ _ _ _ _ _ C L A) as C1.
  unfold authorize_oauth, bind, attempt, context_pages in H.
  rewrite C1 in H. cbn [pages] in H.
  destruct (pages c) as [|p ps] eqn:P; cbn [app open_page ret hd] in H |- *.
  - destruct (respects_steps_existing E oreq (opened c) [] _ _ _ H)
      as [X T].
    unfold open_pages. now rewrite <- X, C1.
  - destruct (respects_steps_existing E oreq p (ps ++ [opened c]) _ _ _ H)
      as [X T].
    unfold open_pages. now rewrite <- X, C1.
Qed.

Lemma authorize_after_login_witness :
  let E := Sample.still "https://claude.ai/new" in
  let w1 := snd (login E {| email := "user@example.com";
                            verification_code := Some "123456" |}
                   startup_world) in
  open_pages (snd (authorize_oauth E Sample.authorize_request w1)) = [0].
Proof.
  cbv zeta.
  exact (proj1 (authorize_after_login
                  (Sample.still "https://claude.ai/new")
                  {| email := "user@example.com";
                     verification_code := Some "123456" |}
                  Sample.authorize_request startup_world _ _ _ _ _
                  eq_refl (surjective_pairing _) eq_refl
                  (surjective_pairing _))).
Defined.

Ltac respect_own :=
  repeat first
    [ progress respect_more
    | apply respects_close;
      [solve [intros; exact I] | solve [cbn; apply Nat.eqb_refl]] ].

Lemma login_steps_own E request p :
  respects (fun _ _ => True) (own_page p)
    (try_except (login_steps E request p)
       (fun e => close p ;; raise (HTTPException 500 (exn_str e)))).
Proof. unfold login_steps, enter_code. respect_own. Qed.

Lemma visual_login_steps_own E request p :
  respects (fun _ _ => True) (own_page p)
    (try_except (Visual.login_steps E request p)
       (fun e => close p ;; raise (HTTPException 500 (exn_str e)))).
Proof. unfold Visual.login_steps. respect_own. Qed.

Lemma own_page_after_new {A} E (m : Page -> M A) (f : M A) c w o w' :
  (forall w0, f w0 = match new_page E w0 with
                     | (Return p, w1) => m p w1
                     | (Raise e, w1) =>
                         (Raise (HTTPException 500 (exn_str e)), w1)
                     end) ->
  (forall p, respects (fun _ _ => True) (own_page p) (m p)) ->
  browser_context w = Some c ->
  f w = (o, w') ->
  exists l,
    trace w' = (trace w ++ l)%list /\ forallb (own_page (opened c)) l = true.
Proof.
  intros Hf Hm C H. rewrite Hf in H. unfold new_page in H. rewrite C in H.
  destruct (env_exec E (trace w) NewPage) as [msg|].
  - injection H as <- <-. exists [NewPage]. auto.
  - destruct (Hm _ _ _ _ H) as [_ [l [T F]]].
    exists (NewPage :: l). split; [|exact F].
    rewrite T. cbn. now rewrite <- app_assoc.
Qed.

(** X13.  [login] of [main.py], and [login] and [manual_login] of
    [main_visual.py], work only on the page they open themselves: every
    browser call they make is the opening of that page, a call on it, a
    sleep, or its closing.  No page that was open before is navigated or
    closed. *)
Theorem login_works_on_own_page E request w c :
  browser_context w = Some c ->
  (forall o w',
      login E request w = (o, w') ->
      exists l,
        trace w' = (trace w ++ l)%list /\
        forallb (own_page (opened c)) l = true) /\
  (forall o w',
      Visual.login E request w = (o, w') ->
      exists l,
        trace w' = (trace w ++ l)%list /\
        forallb (own_page (opened c)) l = true) /\
  (forall o w',
      Visual.manual_login E w = (o, w') ->
      exists l,
        trace w' = (trace w ++ l)%list /\
        forallb (own_page (opened c)) l = true).
Proof.
  intros C. repeat split; intros o w' H.
  - refine (own_page_after_new E _ _ c w o w' _ (login_steps_own E request)
              C H).
    intros w0. unfold login, bind, attempt.
    now destruct (new_page E w0) as [[p|e] w1].
  - refine (own_page_after_new E _ _ c w o w' _
              (visual_login_steps_own E request) C H).
    intros w0. unfold Visual.login, bind, attempt.
    now destruct (new_page E w0) as [[p|e] w1].
  - refine (own_page_after_new E
              (fun p =>
                 try_except
                   (sleep 1000%N 3000%N ;;
                    exec E (Goto p "https://claude.ai/login") ;;
                    ret {| Visual.manual_status := "opened";
                           Visual.manual_message :=
                             "Login page opened. Please complete login manually.";
                           Visual.instructions :=
                             [ "1. Look at the browser window (or connect via VNC on port 5900)";
                               "2. Complete the login process manually";
                               "3. Once logged in, use the /status endpoint to verify";
                               "4. Then you can use /oauth/authorize for OAuth flows" ] |})
                   (fun e => raise (HTTPException 500 (exn_str e))))
              _ c w o w' _ _ C H).
    + intros w0. unfold Visual.manual_login, try_except, bind.
      now destruct (new_page E w0) as [[p|e] w1].
    + intros p. respect_own.
Qed.

Lemma login_works_on_own_page_witness :
  exists l,
    trace (snd (login (Sample.still "https://claude.ai/new")
                  {| email := "user@example.com";
                     verification_code := Some "123456" |}
                  (Sample.one_page 3 [])))
    = ([] ++ l)%list /\
    forallb (own_page 4) l = true.
Proof.
  exact (proj1 (login_works_on_own_page
                  (Sample.still "https://claude.ai/new")
                  {| email := "user@example.com";
                     verification_code := Some "123456" |}
                  (Sample.one_page 3 []) _ eq_refl)
           _ _ (surjective_pairing _)).
Defined.

(** ** The handlers of [main_visual.py] *)






(** ** The status report, in both files *)

(** X17.  [get_status] of [main.py] and of [main_visual.py] agree on
    every field they share, and the visual one adds the mode.  Both leave
    the world as it is, report no error, say [browser_active] exactly when
    the context exists and count the open pages. *)
Theorem status_variants_agree E headless w :
  exists r v,
    get_status E w = (Return r, w) /\
    Visual.get_status E headless w = (Return v, w) /\
    status_error r = None /\ Visual.status_error v = None /\
    (browser_active r = true <-> browser_context w <> None) /\
    pages_open r = List.length (open_pages w) /\
    Visual.browser_active v = browser_active r /\
    Visual.pages_open v = pages_open r /\
    Visual.current_url v = current_url r /\
    Visual.logged_in v = logged_in r /\
    Visual.mode v = Some (if headless then "headless" else "visual").
Proof.
  unfold get_status, Visual.get_status, try_except, open_pages.
  eexists. eexists. split; [reflexivity|]. split; [reflexivity|].
  cbn. destruct (browser_context w) as [c|]; [destruct (pages c)|]; cbn;
    repeat split; try reflexivity; try discriminate; try congruence.
Qed.

(** * The test client *)

Ltac split_in H :=
  match type of H with
  | context [match ?x with _ => _ end] =>
      lazymatch x with
      | context [match _ with _ => _ end] => fail
      | _ => destruct x eqn:?
      end
  end.

(** X18.  [interactive_login] returns [True] only after the two steps of
    the login went through: a non-empty email and a code of exactly six
    characters were typed, exactly two requests were posted to [/login], the
    first with the email alone and the second with the email and that code,
    the first was answered with the status [verification_required] and the
    second with the status [success]. *)
Theorem interactive_login_true api base key t t' :
  Client.interactive_login api base key t = (Return true, t') ->
  exists line1 line2 rest r1 r2,
    Client.stdin t = line1 :: line2 :: rest /\
    Client.stdin t' = rest /\
    PyStr.strip line1 <> EmptyString /\
    String.length (PyStr.strip line2) = 6 /\
    Client.sent t'
    = (Client.sent t
       ++ [login_request base key (PyStr.strip line1) None;
           login_request base key (PyStr.strip line1)
             (Some (PyStr.strip line2))])%list /\
    api (Client.sent t) (login_request base key (PyStr.strip line1) None)
    = Returns r1 /\
    Client.is_at r1 "status" "verification_required" = true /\
    api (Client.sent t
         ++ [login_request base key (PyStr.strip line1) None])%list
      (login_request base key (PyStr.strip line1)
         (Some (PyStr.strip line2)))
    = Returns r2 /\
    Client.is_at r2 "status" "success" = true.
Proof.
  intros H.
  unfold Client.interactive_login, Client.login, Client.print_response,
    Client.getitem, Client.send, Client.try_except, Client.bind,
    Client.print, Client.input, Client.ret, Client.raise in H.
  cbn -[Client.get Client.is_at Client.str PyStr.strip String.append
        Nat.eqb] in H.
  repeat (split_in H;
          cbn -[Client.get Client.is_at Client.str PyStr.strip String.append
                Nat.eqb] in H;
          try discriminate H).
  all: injection H as <-; subst.
  all: repeat match goal with
         | X : negb _ = false |- _ => apply negb_false_iff in X
         | X : _ || _ = false |- _ => apply orb_false_iff in X as [? ?]
         end.
  all: try discriminate.
  all: match goal with
       | X : Client.stdin _ = ?a :: ?b :: ?r |- _ => exists a, b, r
       end; eexists; eexists.
  all: repeat match goal with
         | X : negb _ = false |- _ => apply negb_false_iff in X
         | X : _ || _ = false |- _ => apply orb_false_iff in X as [? ?]
         end.
  all: cbn [Client.stdin Client.sent].
  all: split; [first [assumption | reflexivity]|]; split; [reflexivity|].
  all: split; [match goal with
                  | X : PyStr.truthy ?e = true |- ?e <> _ =>
                      now destruct e
                  end|].
  all: split; [now apply Nat.eqb_eq|].
  all: split; [now rewrite <- app_assoc|].
  all: split; [match goal with
                  | X : _ = Returns _ |- _ => exact X
                  end|]; split; [assumption|].
  all: split; [match goal with
                  | X : _ = Returns _ |- _ => exact X
                  end | assumption].
Qed.

Lemma interactive_login_true_witness :
  exists r2,
    ClientSample.two_steps
      [login_request "http://localhost:8000" "k3y" "user@example.com" None]
      (login_request "http://localhost:8000" "k3y" "user@example.com"
         (Some "123456")) = Returns r2 /\
    Client.is_at r2 "status" "success" = true.
Proof.
  eassert (Run : Client.interactive_login ClientSample.two_steps
                   "http://localhost:8000" "k3y"
                   (ClientSample.typed [" user@example.com"; "123456 "])
                 = (Return true, _)) by (vm_compute; reflexivity).
  destruct (interactive_login_true _ _ _ _ _ Run)
    as [l1 [l2 [rest [r1 [r2 [I [_ [_ [_ [_ [_ [_ [A S]]]]]]]]]]]]].
  injection I as <- <- _. exists r2. split; [exact A | exact S].
Defined.

Ltac client_run :=
  unfold Client.interactive_login, Client.menu_turn, Client.get_status,
    Client.authorize_oauth, Client.login, Client.print_response,
    Client.getitem, Client.send, Client.try_except, Client.bind,
    Client.print, Client.input, Client.ret, Client.raise;
  cbn -[Client.get Client.is_at Client.str Client.truthy_at PyStr.strip
        String.append String.eqb Nat.eqb].

Ltac client_step H :=
  rewrite H;
  cbn -[Client.get Client.is_at Client.str Client.truthy_at PyStr.strip
        String.append String.eqb Nat.eqb].

Lemma truthy_true s : s <> EmptyString -> PyStr.truthy s = true.
Proof. now destruct s. Qed.

(** X19.  A verification code that is not exactly six characters long,
    once stripped, stops [interactive_login] before the second request: it
    returns [False], and the only request sent is the one of the first
    step. *)
Theorem interactive_login_code_length api base key t line1 line2 rest
  r1 status message :
  Client.stdin t = line1 :: line2 :: rest ->
  PyStr.strip line1 <> EmptyString ->
  api (Client.sent t) (login_request base key (PyStr.strip line1) None)
  = Returns r1 ->
  Client.get r1 "status" = Some status ->
  Client.get r1 "message" = Some message ->
  Client.is_at r1 "status" "verification_required" = true ->
  String.length (PyStr.strip line2) <> 6 ->
  exists t',
    Client.interactive_login api base key t = (Return false, t') /\
    Client.stdin t' = rest /\
    Client.sent t'
    = (Client.sent t
       ++ [login_request base key (PyStr.strip line1) None])%list.
Proof.
  intros I E1 A S M V L. apply truthy_true in E1.
  assert (N : r1 <> []) by (intros ->; discriminate S).
  destruct r1 as [|item items]; [congruence|].
  apply Nat.eqb_neq in L.
  client_run. client_step I. client_step E1.
  change {| Client.method := Client.POST;
            Client.url := base ++ "/login";
            Client.headers := [("X-API-Key", key);
                               ("Content-Type", "application/json")];
            Client.json := Some [("email",
                                  Client.JStr (PyStr.strip line1))];
            Client.timeout := Some 30 |}
    with (login_request base key (PyStr.strip line1) None).
  client_step A. client_step S. client_step M. client_step V.
  client_step L. rewrite orb_true_r.
  eexists. split; [reflexivity|]. auto.
Qed.

Lemma interactive_login_code_length_witness :
  exists t',
    Client.interactive_login ClientSample.two_steps "http://localhost:8000"
      "k3y" (ClientSample.typed ["user@example.com"; "12345"])
    = (Return false, t') /\
    List.length (Client.sent t') = 1.
Proof.
  destruct (interactive_login_code_length ClientSample.two_steps
              "http://localhost:8000" "k3y"
              (ClientSample.typed ["user@example.com"; "12345"])
              "user@example.com" "12345" [] _ _ _
              eq_refl ltac:(discriminate) eq_refl eq_refl eq_refl eq_refl
              ltac:(discriminate))
    as [t' [H [_ S]]].
  exists t'. split; [exact H|]. rewrite S. reflexivity.
Defined.

(** X20.  A reply without a [status] (the reply to a wrong key, which
    carries only a [detail]) is not reported as a failure: the line that
    prints the response raises [KeyError], and the exception leaves
    [interactive_login]. *)
Theorem interactive_login_key_error api base key t line1 rest item items :
  Client.stdin t = line1 :: rest ->
  PyStr.strip line1 <> EmptyString ->
  api (Client.sent t) (login_request base key (PyStr.strip line1) None)
  = Returns (item :: items) ->
  Client.get (item :: items) "status" = None ->
  exists t',
    Client.interactive_login api base key t
    = (Raise (Exception "'status'"), t') /\
    Client.stdin t' = rest /\
    Client.sent t'
    = (Client.sent t
       ++ [login_request base key (PyStr.strip line1) None])%list.
Proof.
  intros I E1 A S. apply truthy_true in E1.
  client_run. client_step I. client_step E1.
  change {| Client.method := Client.POST;
            Client.url := base ++ "/login";
            Client.headers := [("X-API-Key", key);
                               ("Content-Type", "application/json")];
            Client.json := Some [("email",
                                  Client.JStr (PyStr.strip line1))];
            Client.timeout := Some 30 |}
    with (login_request base key (PyStr.strip line1) None).
  client_step A. client_step S.
  eexists. split; [reflexivity|]. auto.
Qed.

Lemma interactive_login_key_error_witness :
  exists t',
    Client.interactive_login ClientSample.rejecting "http://localhost:8000"
      "your-secure-api-key-here"
      (ClientSample.typed ["user@example.com"; "123456"])
    = (Raise (Exception "'status'"), t').
Proof.
  destruct (interactive_login_key_error ClientSample.rejecting
              "http://localhost:8000" "your-secure-api-key-here"
              (ClientSample.typed ["user@example.com"; "123456"])
              "user@example.com" ["123456"] _ _
              eq_refl ltac:(discriminate) eq_refl eq_refl)
    as [t' [H _]].
  exists t'. exact H.
Defined.

(** X21.  The third option of the menu asks the API for the status first,
    and goes no further unless the reply says [logged_in]: when the status
    request raises, or its reply is empty or has no true [logged_in], the
    turn ends without asking for a URL and without any request to
    [/oauth/authorize]. *)
Theorem menu_refuses_without_login api base key headers t line rest :
  Client.stdin t = line :: rest ->
  PyStr.strip line = "3" ->
  match api (Client.sent t) (status_request base headers) with
  | Returns d => d = [] \/ Client.truthy_at d "logged_in" = false
  | Throws _ => True
  end ->
  exists t',
    Client.menu_turn api base key headers t = (Return false, t') /\
    Client.stdin t' = rest /\
    Client.sent t' = (Client.sent t ++ [status_request base headers])%list.
Proof.
  intros I C A. client_run. client_step I. rewrite C.
  cbn -[Client.get Client.is_at Client.str Client.truthy_at PyStr.strip
        String.append Nat.eqb].
  change {| Client.method := Client.GET;
            Client.url := base ++ "/status";
            Client.headers := headers;
            Client.json := None;
            Client.timeout := None |}
    with (status_request base headers).
  destruct (api (Client.sent t) (status_request base headers)) as [d|msg].
  - destruct A as [-> | L].
    + cbn. eexists. split; [reflexivity|]. auto.
    + destruct d as [|item items].
      * cbn. eexists. split; [reflexivity|]. auto.
      * cbn -[Client.truthy_at]. rewrite L. cbn.
        eexists. split; [reflexivity|]. auto.
  - cbn. eexists. split; [reflexivity|]. auto.
Qed.

Lemma menu_refuses_without_login_witness :
  exists t',
    Client.menu_turn ClientSample.idle "http://localhost:8000" "k3y"
      [("X-API-Key", "k3y")] (ClientSample.typed ["3"; "https://x"])
    = (Return false, t') /\
    Client.stdin t' = ["https://x"].
Proof.
  destruct (menu_refuses_without_login ClientSample.idle
              "http://localhost:8000" "k3y" [("X-API-Key", "k3y")]
              (ClientSample.typed ["3"; "https://x"]) "3" ["https://x"]
              eq_refl eq_refl (or_intror eq_refl))
    as [t' [H [S _]]].
  exists t'. split; [exact H | exact S].
Defined.

Lemma times_length n : String.length (Client.times "*" n) = n.
Proof. induction n as [|n IH]; [reflexivity|]. cbn. now rewrite IH. Qed.

Lemma append_length a b :
  String.length (a ++ b) = String.length a + String.length b.
Proof. induction a as [|c a IH]; [reflexivity|]. cbn. now rewrite IH. Qed.

Lemma times_get n i :
  i < n -> String.get i (Client.times "*" n) = Some "*"%char.
Proof.
  revert i. induction n as [|n IH]; intros i L; [lia|].
  destruct i as [|i]; [reflexivity|]. cbn. apply IH. lia.
Qed.

Lemma drop_get k : forall s i,
  String.get i (PyStr.drop k s) = String.get (k + i) s.
Proof.
  induction k as [|k IH]; intros s i; [reflexivity|].
  destruct s as [|a s]; cbn; [now destruct i | apply IH].
Qed.

(** X22.  The banner of the client prints the key with every character but
    the last four replaced by a star: the masked text has the length of the
    key, a star at every position before the last four, and the character
    of the key at each of the last four positions.  A key of at most four
    characters is printed in full. *)
Theorem masked_key key :
  String.length (Client.masked key) = String.length key /\
  (forall i,
      i < String.length key - 4 ->
      String.get i (Client.masked key) = Some "*"%char) /\
  (forall i,
      String.length key - 4 <= i ->
      String.get i (Client.masked key) = String.get i key) /\
  (String.length key <= 4 -> Client.masked key = key).
Proof.
  unfold Client.masked, Client.last_chars. repeat split.
  - rewrite append_length, times_length, PyStrFacts.drop_length. lia.
  - intros i L. rewrite <- String.append_correct1
      by (now rewrite times_length).
    now apply times_get.
  - intros i L.
    replace i with (i - (String.length key - 4)
                    + String.length
                        (Client.times "*" (String.length key - 4))) at 1
      by (rewrite times_length; lia).
    rewrite <- String.append_correct2, drop_get. f_equal. lia.
  - intros L. replace (String.length key - 4) with 0 by lia. reflexivity.
Qed.

Lemma masked_key_witness :
  String.get 0 (Client.masked "your-secure-api-key-here") = Some "*"%char /\
  String.get 20 (Client.masked "your-secure-api-key-here") = Some "h"%char /\
  Client.masked "abc" = "abc".
Proof.
  split; [|split].
  - apply (masked_key "your-secure-api-key-here"). cbn. lia.
  - rewrite (proj1 (proj2 (proj2 (masked_key "your-secure-api-key-here"))) 20)
      by (cbn; lia).
    reflexivity.
  - apply (masked_key "abc"). cbn. lia.
Defined.

(** ** The loop of the menu *)

Section Reading.

Local Open Scope client_scope.

Lemma reading_weaken {A} (Q Q' : A -> Prop) m :
  (forall a, Q a -> Q' a) -> reading Q m -> reading Q' m.
Proof.
  intros W H t o t' X. destruct (H _ _ _ X) as [U R]. split; [exact U|].
  intros a E. apply W, (R _ E).
Qed.

Lemma reading_ret {A} (Q : A -> Prop) a : Q a -> reading Q (Client.ret a).
Proof.
  intros H t o t' [= <- <-]. split; [now exists []|].
  now intros a' [= <-].
Qed.

Lemma reading_raise {A} (Q : A -> Prop) e : reading Q (@Client.raise A e).
Proof.
  intros t o t' [= <- <-]. split; [now exists []|]. discriminate.
Qed.

Lemma reading_bind {A B} (Q : B -> Prop) (m : Client.C A)
  (k : A -> Client.C B) :
  reading (fun _ => True) m -> (forall a, reading Q (k a)) ->
  reading Q (Client.bind m k).
Proof.
  intros Hm Hk t o t' X. unfold Client.bind in X.
  destruct (m t) as [[a|e] t1] eqn:M; destruct (Hm _ _ _ M) as [[u1 U1] _].
  - destruct (Hk _ _ _ _ X) as [[u2 U2] R]. split; [|exact R].
    exists (u1 ++ u2)%list. now rewrite U1, U2, app_assoc.
  - injection X as <- <-. split; [now exists u1 | discriminate].
Qed.

Lemma reading_try {A} (Q : A -> Prop) (m : Client.C A) h :
  reading Q m -> (forall e, reading Q (h e)) ->
  reading Q (Client.try_except m h).
Proof.
  intros Hm Hh t o t' X. unfold Client.try_except in X.
  destruct (m t) as [[a|e] t1] eqn:M; destruct (Hm _ _ _ M) as [[u1 U1] R1].
  - injection X as <- <-. split; [now exists u1 | exact R1].
  - destruct (Hh _ _ _ _ X) as [[u2 U2] R]. split; [|exact R].
    exists (u1 ++ u2)%list. now rewrite U1, U2, app_assoc.
Qed.

Lemma reading_print s : reading (fun _ => True) (Client.print s).
Proof.
  intros t o t' [= <- <-]. split; [now exists [] | auto].
Qed.

Lemma reading_input s : reading (fun _ => True) (Client.input s).
Proof.
  intros t o t'. unfold Client.input.
  destruct (Client.stdin t) as [|line rest] eqn:I; intros [= <- <-];
    (split; [|auto]).
  - now exists [].
  - now exists [line].
Qed.

Lemma reading_getitem d key : reading (fun _ => True) (Client.getitem d key).
Proof.
  unfold Client.getitem. destruct (Client.get d key);
    [now apply reading_ret | apply reading_raise].
Qed.

Lemma reading_send api r : reading (fun _ => True) (Client.send api r).
Proof.
  intros t o t'. unfold Client.send.
  destruct (api (Client.sent t) r); intros [= <- <-];
    (split; [now exists [] | auto]).
Qed.

End Reading.

Ltac reads :=
  repeat first
    [ apply reading_print | apply reading_input | apply reading_getitem
    | apply reading_send | apply reading_raise
    | assumption
    | solve [apply reading_ret; intros;
             first [exact I | discriminate | now apply String.eqb_eq]]
    | apply reading_try | apply reading_bind
    | progress intros
    | match goal with
      | |- reading _ (if ?b then _ else _) => destruct b
      | |- reading _ (match ?x with _ => _ end) => destruct x
      | |- reading _ (let _ := _ in _) => cbv zeta
      end ].

Lemma reading_interactive_login api base key :
  reading (fun _ => True) (Client.interactive_login api base key).
Proof.
  unfold Client.interactive_login, Client.login, Client.print_response.
  reads.
Qed.

Lemma reading_after_input {A} (Q : string -> A -> Prop) prompt
  (k : string -> Client.C A) t a t' :
  (forall line, reading (Q line) (k line)) ->
  Client.bind (Client.input prompt) k t = (Return a, t') ->
  exists line used,
    Client.stdin t = (line :: used ++ Client.stdin t')%list /\ Q line a.
Proof.
  intros R H. unfold Client.bind, Client.input in H.
  destruct (Client.stdin t) as [|line rest] eqn:I; [discriminate H|].
  destruct (R line _ _ _ H) as [[used U] P]. cbn [Client.stdin] in U.
  exists line, used. split; [now rewrite U | exact (P _ eq_refl)].
Qed.

Lemma menu_turn_reads api base key headers t leave t' :
  Client.menu_turn api base key headers t = (Return leave, t') ->
  exists line used,
    Client.stdin t = (line :: used ++ Client.stdin t')%list /\
    (leave = true -> PyStr.strip line = "4").
Proof.
  intros H. unfold Client.menu_turn in H.
  do 5 (unfold Client.bind at 1 in H; unfold Client.print at 1 in H;
        cbv beta iota in H).
  apply (reading_after_input
           (fun line b => b = true -> PyStr.strip line = "4")) in H.
  - cbn [Client.stdin] in H. exact H.
  - intros line. cbv zeta.
    pose proof (reading_interactive_login api base key) as L.
    unfold Client.get_status, Client.authorize_oauth.
    destruct (String.eqb (PyStr.strip line) "1"); [reads|].
    destruct (String.eqb (PyStr.strip line) "2"); [reads|].
    destruct (String.eqb (PyStr.strip line) "3"); [reads|].
    destruct (String.eqb (PyStr.strip line) "4") eqn:E4; reads.
Qed.

(** X23.  The menu loop of the client is left only through option 4.  Every
    turn reads a line, so with more turns than there are lines of input the
    loop does not go on: it ends, one of the lines read being 4 up to the
    white space around it, or an exception leaves it (the end of the input
    among them). *)
Theorem menu_loop_ends api base key headers fuel t o t' :
  List.length (Client.stdin t) < fuel ->
  Client.menu_loop api base key fuel headers t = (o, t') ->
  o <> Return None /\
  (forall u, o = Return (Some u) ->
     exists line, In line (Client.stdin t) /\ PyStr.strip line = "4").
Proof.
  revert t. induction fuel as [|fuel IH]; intros t L H; [lia|].
  cbn [Client.menu_loop] in H. unfold Client.bind at 1 in H.
  destruct (Client.menu_turn api base key headers t) as [[leave|e] t1] eqn:T.
  - destruct (menu_turn_reads _ _ _ _ _ _ _ T) as [line [used [U Q]]].
    destruct leave.
    + injection H as <- <-. split; [discriminate|].
      intros _ _. exists line. split; [rewrite U; now left | now apply Q].
    + assert (L1 : List.length (Client.stdin t1) < fuel).
      { rewrite U in L. cbn [List.length] in L.
        rewrite length_app in L. lia. }
      destruct (IH _ L1 H) as [N R]. split; [exact N|].
      intros u Eo. destruct (R u Eo) as [l [In1 S4]].
      exists l. split; [|exact S4].
      rewrite U. right. apply in_or_app. now right.
  - injection H as <- <-. split; discriminate.
Qed.

Lemma menu_loop_ends_witness :
  exists t',
    Client.menu_loop ClientSample.idle "http://localhost:8000" "k3y" 4
      [("X-API-Key", "k3y")] (ClientSample.typed ["2"; "x"; " 4 "])
    = (Return (Some tt), t') /\
    exists line, In line ["2"; "x"; " 4 "] /\ PyStr.strip line = "4".
Proof.
  eexists. split; [vm_compute; reflexivity|].
  refine (proj2 (menu_loop_ends ClientSample.idle "http://localhost:8000"
                   "k3y" [("X-API-Key", "k3y")] 4
                   (ClientSample.typed ["2"; "x"; " 4 "]) _ _ _ _) tt _).
  - cbn. lia.
  - vm_compute. reflexivity.
  - reflexivity.
Defined.
